(** * angry-platypus back end: the user data model, its custom-field
      operations, the declared relational schema and the user router.

    The development follows the source tree:

    - [users_sqla_model.py]: [UserRole], [MilitaryBranch], the [User]
      custom-field accessors [get_custom_field] / [set_custom_field],
      and the column declarations of the three tables;
    - [base_sqla_model.py]: the [id], [created_on], [updated_on] columns
      every concrete model inherits;
    - [users_routes.py]: the [/users] router and its single handler.

    Python dictionaries are objects with an identity, so the accessors run
    over a store of dictionaries addressed by reference.  Column
    declarations are data; the storage engine that interprets them
    (defaults, NOT NULL, UNIQUE, PRIMARY KEY, FOREIGN KEY, column types) is
    written once, generically, and instantiated with the declared
    metadata. *)

From Stdlib Require Import ZArith.
From stdpp Require Import gmap strings list fin_maps.

Local Open Scope string_scope.
Set Warnings "-register-all".

(** ** JSON values

    What a JSONB column (and a Python dictionary destined for one) can
    hold. *)

Inductive json : Type :=
| JNull
| JBool (b : bool)
| JNum (n : Z)
| JStr (s : string)
| JArr (items : list json)
| JObj (members : list (string * json)).

#[global] Instance json_eq_dec : EqDecision json.
Proof.
  refine (fix go (a b : json) {struct a} : Decision (a = b) :=
    match a, b with
    | JNull, JNull => left eq_refl
    | JBool x, JBool y => cast_if (decide (x = y))
    | JNum x, JNum y => cast_if (decide (x = y))
    | JStr x, JStr y => cast_if (decide (x = y))
    | JArr xs, JArr ys => cast_if (@list_eq_dec _ go xs ys)
    | JObj xs, JObj ys =>
        cast_if (@list_eq_dec _ (@prod_eq_dec _ _ _ go) xs ys)
    | _, _ => right _
    end); congruence.
Defined.

(** ** Results of fallible operations *)

Inductive result (E A : Type) : Type :=
| Ok (a : A)
| Err (e : E).
Arguments Ok {E A} a.
Arguments Err {E A} e.

#[global] Instance result_ret {E} : MRet (result E) := fun _ a => Ok a.
#[global] Instance result_bind {E} : MBind (result E) :=
  fun _ _ f m => match m with Ok a => f a | Err e => Err e end.

Definition is_ok {E A} (r : result E A) : bool :=
  match r with Ok _ => true | Err _ => false end.

#[global] Instance result_eq_dec {E A} `{EqDecision E, EqDecision A} :
  EqDecision (result E A).
Proof. solve_decision. Defined.

(** ** Python enumerations ([enum.Enum]) and SQLAlchemy's [Enum] type *)

Module Enum.

(** A PEP-435 enumeration: its members in definition order, and each
    member's [name] and [value]. *)
Class PyEnum (E : Type) := {
  members : list E;
  name : E -> string;
  value : E -> string;
}.

(** [class UserRole(enum.Enum)] *)
Inductive UserRole : Type := ADMIN | USER.

#[global] Instance UserRole_eq_dec : EqDecision UserRole.
Proof. solve_decision. Defined.

#[global] Instance UserRole_enum : PyEnum UserRole := {|
  members := [ADMIN; USER];
  name e := match e with ADMIN => "ADMIN" | USER => "USER" end;
  value e := match e with ADMIN => "admin" | USER => "user" end;
|}.

(** [class MilitaryBranch(enum.Enum)] *)
Inductive MilitaryBranch : Type :=
  ARMY | NAVY | AIR_FORCE | MARINES | SPACE_FORCE | COAST_GUARD.

#[global] Instance MilitaryBranch_eq_dec : EqDecision MilitaryBranch.
Proof. solve_decision. Defined.

#[global] Instance MilitaryBranch_enum : PyEnum MilitaryBranch := {|
  members := [ARMY; NAVY; AIR_FORCE; MARINES; SPACE_FORCE; COAST_GUARD];
  name e := match e with
            | ARMY => "ARMY" | NAVY => "NAVY" | AIR_FORCE => "AIR_FORCE"
            | MARINES => "MARINES" | SPACE_FORCE => "SPACE_FORCE"
            | COAST_GUARD => "COAST_GUARD"
            end;
  value e := match e with
             | ARMY => "army" | NAVY => "navy" | AIR_FORCE => "air_force"
             | MARINES => "marines" | SPACE_FORCE => "space_force"
             | COAST_GUARD => "coast_guard"
             end;
|}.

(** [sqlalchemy.Enum(enum_class, values_callable=...)].  The strings the
    column persists are what [values_callable] returns for the class when
    it is given, and the member names when it is not. *)
Record SQLEnum (E : Type) := {
  values_callable : option (list E -> list string);
}.
Arguments values_callable {E} _.

Section SQLEnum.
  Context {E : Type} `{PyEnum E} `{EqDecision E}.

(** [Enum.enums]: the persisted labels, in member order. *)
Definition enums (t : SQLEnum E) : list string :=
  match values_callable t with
  | Some f => f members
  | None => map name members
  end.

(** The member-to-label table the bind processor consults. *)
Definition valid_lookup (t : SQLEnum E) : list (E * string) :=
  zip members (enums t).

(** The label-to-member table the result processor consults. *)
Definition object_lookup (t : SQLEnum E) : list (string * E) :=
  zip (enums t) members.

Fixpoint assoc {K V} `{EqDecision K} (k : K) (l : list (K * V)) : option V :=
  match l with
  | [] => None
  | (k', v) :: l' => if decide (k = k') then Some v else assoc k l'
  end.

(** What is written to the column for a member. *)
Definition bind_processor (t : SQLEnum E) (e : E) : option string :=
  assoc e (valid_lookup t).

(** What a stored label is read back as. *)
Definition result_processor (t : SQLEnum E) (s : string) : option E :=
  assoc s (object_lookup t).
End SQLEnum.

(** [SQLEnum(UserRole, values_callable=lambda x: [e.value for e in x])] *)
Definition role_type : SQLEnum UserRole :=
  {| values_callable := Some (fun x => map value x) |}.

(** [SQLEnum(MilitaryBranch)] *)
Definition branch_type : SQLEnum MilitaryBranch :=
  {| values_callable := None |}.

End Enum.

(** ** The Python side: dictionaries by reference *)

Module Py.
Import Enum.

(** Identity of a dictionary object. *)
Definition ref := positive.

(** Exceptions of the modelled fragment.  [DanglingReference] has no
    Python counterpart (a reference always denotes a live object); it
    makes the store lookup total. *)
Inductive exn : Type :=
| TypeError (msg : string)
| DanglingReference (r : ref).

(** A mapped [User] instance: its column attributes, and the attribute
    keys the session has been told are modified. *)
Record User := {
  id : option N;
  created_on : option Z;
  updated_on : option Z;
  name : string;
  email : string;
  role : UserRole;
  is_active : bool;
  user_type : option string;
  custom_type_definition_id : option N;
  custom_fields : option ref;
  modified : gset string;
}.

(** The interpreter state an accessor runs in: the live dictionaries and
    the instance bound to [self]. *)
Record world := {
  store : gmap ref (gmap string json);
  self : User;
}.

Definition Py (A : Type) : Type := world -> result exn (A * world).

#[global] Instance Py_ret : MRet Py := fun _ a w => Ok (a, w).
#[global] Instance Py_bind : MBind Py :=
  fun _ _ f m w => match m w with Ok (a, w') => f a w' | Err e => Err e end.

Definition raise {A} (e : exn) : Py A := fun _ => Err e.

(** [self.custom_fields] *)
Definition getattr_custom_fields : Py (option ref) :=
  fun w => Ok (custom_fields (self w), w).

(** [self.custom_fields = v] *)
Definition setattr_custom_fields (v : option ref) : Py unit :=
  fun w =>
    let u := self w in
    Ok (tt, {| store := store w;
               self := {| id := id u; created_on := created_on u;
                          updated_on := updated_on u; name := name u;
                          email := email u; role := role u;
                          is_active := is_active u;
                          user_type := user_type u;
                          custom_type_definition_id :=
                            custom_type_definition_id u;
                          custom_fields := v;
                          modified := modified u |} |}).

(** [flag_modified(self, key)] *)
Definition flag_modified (key : string) : Py unit :=
  fun w =>
    let u := self w in
    Ok (tt, {| store := store w;
               self := {| id := id u; created_on := created_on u;
                          updated_on := updated_on u; name := name u;
                          email := email u; role := role u;
                          is_active := is_active u;
                          user_type := user_type u;
                          custom_type_definition_id :=
                            custom_type_definition_id u;
                          custom_fields := custom_fields u;
                          modified := {[key]} ∪ modified u |} |}).

(** Allocation of a dictionary object with the given contents. *)
Definition new_dict (d : gmap string json) : Py ref :=
  fun w =>
    let r := fresh (dom (store w)) in
    Ok (r, {| store := <[r := d]> (store w); self := self w |}).

Definition deref (r : ref) : Py (gmap string json) :=
  fun w =>
    match store w !! r with
    | Some d => Ok (d, w)
    | None => Err (DanglingReference r)
    end.

(** [dict(x)]: a new dictionary with the items of [x]; [None] is not
    iterable. *)
Definition dict_ (x : option ref) : Py ref :=
  match x with
  | Some r => d ← deref r; new_dict d
  | None => raise (TypeError "'NoneType' object is not iterable")
  end.

(** [d[k] = v], in place. *)
Definition dict_setitem (r : ref) (k : string) (v : json) : Py unit :=
  fun w =>
    match store w !! r with
    | Some d => Ok (tt, {| store := <[r := <[k := v]> d]> (store w);
                           self := self w |})
    | None => Err (DanglingReference r)
    end.

(** [d.get(k, default)] *)
Definition dict_get (r : ref) (k : string) (default : json) : Py json :=
  d ← deref r;
  mret (match d !! k with Some v => v | None => default end).

(** [User.get_custom_field(self, field_name, default=None)]; the Python
    default of the last parameter is [None], here [JNull]. *)
Definition get_custom_field (field_name : string) (default : json) : Py json :=
  cf ← getattr_custom_fields;
  match cf with
  | Some r => dict_get r field_name default
  | None => mret default
  end.

(** [set_custom_field(self, field_name, value)].  In the source the
    [def] stands at module level, directly below the [User] class, with
    the instance as its first parameter; it is a function of the instance
    either way. *)
Definition set_custom_field (field_name : string) (value : json) : Py unit :=
  cf ← getattr_custom_fields;
  match cf with
  | None => r ← new_dict ∅; setattr_custom_fields (Some r)
  | Some _ => mret tt
  end;;
  cf ← getattr_custom_fields;
  fields ← dict_ cf;
  dict_setitem fields field_name value;;
  setattr_custom_fields (Some fields);;
  flag_modified "custom_fields".

(** The document the instance currently points at. *)
Definition document (w : world) : option (gmap string json) :=
  r ← custom_fields (self w); store w !! r.

(** The document [set_custom_field] starts from: the current one, or the
    empty one it installs when the attribute is [None]. *)
Definition base_document (w : world) : gmap string json :=
  match document w with Some d => d | None => ∅ end.

(** The attribute never holds a reference to a dead object. *)
Definition wf (w : world) : Prop :=
  forall r, custom_fields (self w) = Some r -> is_Some (store w !! r).

(** A sample state: one live dictionary, referenced by the instance. *)
Definition sample_user (cf : option ref) : User :=
  {| id := Some 7%N; created_on := Some 100%Z; updated_on := Some 100%Z;
     name := "Ada"; email := "ada@example.org"; role := USER;
     is_active := true; user_type := Some "user";
     custom_type_definition_id := None;
     custom_fields := cf; modified := ∅ |}.

Definition sample_world : world :=
  {| store := {[ 1%positive :=
                   {[ "ship_assignment" := JStr "USS Enterprise" ]} ]};
     self := sample_user (Some 1%positive) |}.

End Py.

(** ** The relational side: column declarations and the storage engine *)

Module Sql.

(** Column types used by the models. *)
Inductive sqltype : Type :=
| String_ (length : nat)            (* String(n), VARCHAR(n) *)
| Text
| Boolean
| UUID
| DateTime
| JSONB
| Enum_ (labels : list string).     (* Enum(...), by its persisted labels *)

(** SQL values. *)
Inductive value : Type :=
| VNull
| VStr (s : string)
| VBool (b : bool)
| VUuid (u : N)
| VTime (t : Z)
| VJson (j : json).

#[global] Instance value_eq_dec : EqDecision value.
Proof. solve_decision. Defined.

(** What a [default=], [server_default=] or [onupdate=] argument can be
    in the models. *)
Inductive generator : Type :=
| Scalar (v : value)       (* default=True, default=UserRole.USER *)
| Callable_dict            (* default=dict *)
| Callable_uuid4           (* default=uuid.uuid4 *)
| Func_now.                (* func.now() *)

(** What the environment supplies to one statement: the clock reading of
    [now()] and the outcome of [uuid.uuid4()]. *)
Record env := {
  now : Z;
  uuid4 : N;
}.

Definition generate (e : env) (g : generator) : value :=
  match g with
  | Scalar v => v
  | Callable_dict => VJson (JObj [])
  | Callable_uuid4 => VUuid (uuid4 e)
  | Func_now => VTime (now e)
  end.

(** Keyword arguments of [Column(...)]. *)
Inductive kwarg : Type :=
| primary_key (b : bool)
| nullable (b : bool)
| unique (b : bool)
| index (b : bool)
| ForeignKey (table column : string)
| default (g : generator)
| server_default (g : generator)
| onupdate (g : generator).

(** A column as the table holds it, every argument resolved. *)
Record ColumnDef := {
  col_name : string;
  col_type : sqltype;
  col_primary_key : bool;
  col_nullable : bool;
  col_unique : bool;
  col_index : bool;
  col_foreign_key : option (string * string);
  col_default : option generator;
  col_server_default : option generator;
  col_onupdate : option generator;
}.

(** First occurrence of a keyword argument. *)
Definition kw {A} (f : kwarg -> option A) (kwargs : list kwarg) : option A :=
  head (omap f kwargs).

(** [Column(type, **kwargs)] under an attribute name.  Flags default to
    [False], except [nullable], which defaults to [not primary_key]. *)
Definition Column (name : string) (type_ : sqltype) (kwargs : list kwarg)
  : ColumnDef :=
  let pk :=
    match kw (fun a => match a with primary_key b => Some b | _ => None end)
             kwargs with
    | Some b => b | None => false end in
  {| col_name := name;
     col_type := type_;
     col_primary_key := pk;
     col_nullable :=
       match kw (fun a => match a with nullable b => Some b | _ => None end)
                kwargs with
       | Some b => b | None => negb pk end;
     col_unique :=
       match kw (fun a => match a with unique b => Some b | _ => None end)
                kwargs with
       | Some b => b | None => false end;
     col_index :=
       match kw (fun a => match a with index b => Some b | _ => None end)
                kwargs with
       | Some b => b | None => false end;
     col_foreign_key :=
       kw (fun a => match a with ForeignKey t c => Some (t, c) | _ => None end)
          kwargs;
     col_default :=
       kw (fun a => match a with default g => Some g | _ => None end) kwargs;
     col_server_default :=
       kw (fun a => match a with server_default g => Some g | _ => None end)
          kwargs;
     col_onupdate :=
       kw (fun a => match a with onupdate g => Some g | _ => None end) kwargs;
  |}.

Record Table := {
  tablename : string;
  columns : list ColumnDef;
}.

(** A row maps column names to values; a database maps table names to
    their rows, in insertion order. *)
Abbreviation row := (gmap string value).
Abbreviation database := (gmap string (list (gmap string value))).

Definition rows (db : database) (t : string) : list row :=
  match db !! t with Some rs => rs | None => [] end.

Definition cell (r : row) (c : string) : value :=
  match r !! c with Some v => v | None => VNull end.

Inductive error : Type :=
| UndefinedTable (t : string)
| UndefinedColumn (t c : string)
| DataError (t c : string)
| NotNullViolation (t c : string)
| UniqueViolation (t c : string)
| ForeignKeyViolation (t c : string)
| InvalidKeywordArgument (cls k : string)
| NoSuchPolymorphicIdentity (d : string).

#[global] Instance error_eq_dec : EqDecision error.
Proof. solve_decision. Defined.

(** *** Column types *)

Fixpoint all_spaces (s : string) : bool :=
  match s with
  | EmptyString => true
  | String a s' => bool_decide (a = Ascii.Space) && all_spaces s'
  end.

(** The value stored for a value offered to a column of the given type,
    or [None] when the type refuses it.  NULL fits every type.  A string
    longer than a VARCHAR(n) is refused, unless the excess is spaces only,
    in which case it is cut to [n] characters. *)
Definition coerce (ty : sqltype) (v : value) : option value :=
  match v, ty with
  | VNull, _ => Some VNull
  | VStr s, String_ n =>
      if bool_decide (String.length s <= n)%nat then Some (VStr s)
      else if all_spaces (String.substring n (String.length s - n) s)
           then Some (VStr (String.substring 0 n s))
           else None
  | VStr s, Text => Some (VStr s)
  | VStr s, Enum_ labels =>
      if bool_decide (s ∈ labels) then Some (VStr s) else None
  | VBool b, Boolean => Some (VBool b)
  | VUuid u, UUID => Some (VUuid u)
  | VTime t, DateTime => Some (VTime t)
  | VJson j, JSONB => Some (VJson j)
  | _, _ => None
  end.

(** *** Constraints, as conditions on a database state *)

Definition column_values (c : string) (rs : list row) : list value :=
  map (fun r => cell r c) rs.

Definition type_ok (c : ColumnDef) (rs : list row) : bool :=
  forallb (fun r => bool_decide (coerce (col_type c) (cell r (col_name c))
                                 = Some (cell r (col_name c)))) rs.

Definition not_null_ok (c : ColumnDef) (rs : list row) : bool :=
  forallb (fun r => bool_decide (cell r (col_name c) ≠ VNull)) rs.

(** UNIQUE: no two rows share a non-NULL value. *)
Definition unique_ok (c : ColumnDef) (rs : list row) : bool :=
  bool_decide (NoDup (filter (fun v => v ≠ VNull)
                             (column_values (col_name c) rs))).

(** FOREIGN KEY: every non-NULL value occurs in the referenced column. *)
Definition fk_ok (db : database) (c : ColumnDef) (rs : list row) : bool :=
  match col_foreign_key c with
  | None => true
  | Some (t', c') =>
      forallb (fun r => bool_decide (cell r (col_name c) = VNull)
                        || bool_decide (cell r (col_name c)
                                        ∈ column_values c' (rows db t'))) rs
  end.

Definition check_column (db : database) (t : string) (c : ColumnDef)
  : result error unit :=
  let rs := rows db t in
  if negb (type_ok c rs) then Err (DataError t (col_name c))
  else if (negb (col_nullable c) || col_primary_key c)
          && negb (not_null_ok c rs)
       then Err (NotNullViolation t (col_name c))
  else if (col_unique c || col_primary_key c) && negb (unique_ok c rs)
       then Err (UniqueViolation t (col_name c))
  else if negb (fk_ok db c rs) then Err (ForeignKeyViolation t (col_name c))
  else Ok tt.

Fixpoint check_columns (db : database) (t : string) (cs : list ColumnDef)
  : result error unit :=
  match cs with
  | [] => Ok tt
  | c :: cs' => check_column db t c;; check_columns db t cs'
  end.

(** Every declared constraint of every table, on the whole state; the
    first violation is reported. *)
Fixpoint check (md : list Table) (db : database) : result error unit :=
  match md with
  | [] => Ok tt
  | T :: md' => check_columns db (tablename T) (columns T);; check md' db
  end.

(** *** Statements *)

(** [WHERE wc = wv]; a comparison with NULL selects nothing. *)
Definition matches (wc : string) (wv : value) (r : row) : Prop :=
  wv ≠ VNull /\ cell r wc = wv.

#[global] Instance matches_dec wc wv r : Decision (matches wc wv r).
Proof. unfold matches. apply _. Defined.

Inductive statement : Type :=
| Insert (t : string) (params : row)
| Update (t wc : string) (wv : value) (params : row)
| Delete (t wc : string) (wv : value).

Definition column_names (T : Table) : gset string :=
  list_to_set (map col_name (columns T)).

(** The value an INSERT gives a column: the supplied one, else the
    Python-side default, else the server default, else NULL. *)
Definition insert_value (e : env) (params : row) (c : ColumnDef) : value :=
  match params !! col_name c with
  | Some v => v
  | None =>
      match col_default c with
      | Some g => generate e g
      | None =>
          match col_server_default c with
          | Some g => generate e g
          | None => VNull
          end
      end
  end.

(** The value an UPDATE gives a column of a selected row: the one in the
    SET clause, else the [onupdate] value, else the old one. *)
Definition update_value (e : env) (params old : row) (c : ColumnDef)
  : value :=
  match params !! col_name c with
  | Some v => v
  | None =>
      match col_onupdate c with
      | Some g => generate e g
      | None => cell old (col_name c)
      end
  end.

Fixpoint build_row (t : string) (f : ColumnDef -> value)
    (cs : list ColumnDef) : result error row :=
  match cs with
  | [] => Ok ∅
  | c :: cs' =>
      match coerce (col_type c) (f c) with
      | Some v => r ← build_row t f cs'; mret (<[col_name c := v]> r)
      | None => Err (DataError t (col_name c))
      end
  end.

Definition known_columns (T : Table) (cs : gset string)
  : result error unit :=
  match elements (cs ∖ column_names T) with
  | [] => Ok tt
  | c :: _ => Err (UndefinedColumn (tablename T) c)
  end.

Section Engine.
  Variable md : list Table.

Definition table_named (t : string) : result error Table :=
  match List.find (fun T => bool_decide (tablename T = t)) md with
  | Some T => Ok T
  | None => Err (UndefinedTable t)
  end.

(** A statement takes effect only if the state it leads to satisfies
    every declared constraint. *)
Definition commit (db' : database) : result error database :=
  check md db';; mret db'.

Definition insert_into (e : env) (t : string) (params : row) (db : database)
  : result error database :=
  T ← table_named t;
  known_columns T (dom params);;
  r ← build_row t (insert_value e params) (columns T);
  commit (<[t := (rows db t ++ [r])%list]> db).

Fixpoint update_rows (e : env) (T : Table) (wc : string) (wv : value)
    (params : row) (rs : list row) : result error (list row) :=
  match rs with
  | [] => Ok []
  | r :: rs' =>
      r' ← (if decide (matches wc wv r)
            then build_row (tablename T) (update_value e params r)
                           (columns T)
            else Ok r);
      rs'' ← update_rows e T wc wv params rs';
      mret (r' :: rs'')
  end.

Definition update_where (e : env) (t wc : string) (wv : value) (params : row)
    (db : database) : result error database :=
  T ← table_named t;
  known_columns T ({[wc]} ∪ dom params);;
  rs ← update_rows e T wc wv params (rows db t);
  commit (<[t := rs]> db).

Definition delete_from (t wc : string) (wv : value) (db : database)
  : result error database :=
  T ← table_named t;
  known_columns T {[wc]};;
  commit (<[t := filter (fun r => ¬ matches wc wv r) (rows db t)]> db).

Definition execute (e : env) (s : statement) (db : database)
  : result error database :=
  match s with
  | Insert t params => insert_into e t params db
  | Update t wc wv params => update_where e t wc wv params db
  | Delete t wc wv => delete_from t wc wv db
  end.

(** The states the engine can be in: the empty database, and whatever
    a successful statement leads to. *)
Inductive reachable : database -> Prop :=
  | reachable_empty : reachable ∅
  | reachable_step db e s db' :
      reachable db -> execute e s db = Ok db' -> reachable db'.
End Engine.

End Sql.

(** ** The declared models *)

Module Models.
Import Sql.

(** *** [base_sqla_model.py] *)

(** [TimeStampMixin.created_on] *)
Definition created_on : ColumnDef :=
  Column "created_on" DateTime [server_default Func_now; nullable false].

(** [TimeStampMixin.updated_on] *)
Definition updated_on : ColumnDef :=
  Column "updated_on" DateTime
         [server_default Func_now; onupdate Func_now; nullable false].

(** [BaseModel.id] *)
Definition id : ColumnDef :=
  Column "id" UUID [primary_key true; default Callable_uuid4; nullable false].

(** [BaseModel] is abstract: it contributes its columns to the table of
    the first mapped class below it. *)
Definition BaseModel : list ColumnDef := [id; created_on; updated_on].

(** *** [users_sqla_model.py] *)

(** The column type of [User.role] and the bound form of its default
    [UserRole.USER]. *)
Definition role_column_type : sqltype := Enum_ (Enum.enums Enum.role_type).

Definition role_default : value :=
  match Enum.bind_processor Enum.role_type Enum.USER with
  | Some s => VStr s
  | None => VNull
  end.

Definition branch_column_type : sqltype :=
  Enum_ (Enum.enums Enum.branch_type).

(** [UserTypeDefinition.name] *)
Definition UserTypeDefinition_name : ColumnDef :=
  Column "name" (String_ 100) [nullable false; index true].

(** [User.email] *)
Definition User_email : ColumnDef :=
  Column "email" (String_ 255) [unique true; nullable false; index true].

(** [User.role] *)
Definition User_role : ColumnDef :=
  Column "role" role_column_type
         [nullable false; default (Scalar role_default)].

(** [User.user_type], the discriminator column. *)
Definition User_user_type : ColumnDef :=
  Column "user_type" (String_ 50) [].

(** [MilitaryUser.id] *)
Definition MilitaryUser_id : ColumnDef :=
  Column "id" UUID [ForeignKey "users" "id"; primary_key true].

(** [MilitaryUser.branch] *)
Definition MilitaryUser_branch : ColumnDef :=
  Column "branch" branch_column_type [nullable true].

Definition UserTypeDefinition : Table := {|
  tablename := "user_type_definitions";
  columns := BaseModel ++ [
    UserTypeDefinition_name;
    Column "description" Text [nullable true];
    Column "field_schema" JSONB [nullable false; default Callable_dict];
    Column "is_active" Boolean [default (Scalar (VBool true)); nullable false]
  ];
|}.

Definition User : Table := {|
  tablename := "users";
  columns := BaseModel ++ [
    Column "name" (String_ 255) [nullable false];
    User_email;
    User_role;
    Column "is_active" Boolean [default (Scalar (VBool true)); nullable false];
    User_user_type;
    Column "custom_type_definition_id" UUID
           [ForeignKey "user_type_definitions" "id"; nullable true; index true];
    Column "custom_fields" JSONB [nullable true; default Callable_dict]
  ];
|}.

(** Joined-table inheritance: the subclass table holds only the columns
    the subclass declares; everything inherited stays in [users]. *)
Definition MilitaryUser : Table := {|
  tablename := "military_users";
  columns := [
    MilitaryUser_id;
    Column "rank" (String_ 50) [nullable true];
    Column "unit" (String_ 255) [nullable true];
    Column "mos" (String_ 50) [nullable true];
    MilitaryUser_branch;
    Column "service_number" (String_ 50) [nullable true; index true];
    Column "clearance_level" (String_ 50) [nullable true]
  ];
|}.

(** [Base.metadata] *)
Definition metadata : list Table := [UserTypeDefinition; User; MilitaryUser].

End Models.

(** ** The mappers and the unit of work

    What the declarative classes configure besides columns: the table
    chain of each mapped class and the polymorphic discriminator.

    The [relationship()] attributes are not columns and are not embedded.
    Two of them, [assessments_as_tester] and [assessments_as_evaluator],
    name a class [Assessment] that no module of the repository defines, so
    configuring the mappers of this snapshot raises before the unit of
    work issues any statement.  The definitions below describe the
    statements a flush issues for the column-mapped part of a configured
    hierarchy; they support what a flush refuses and what follows from a
    flush that went through, never that one goes through.  What goes
    through is stated on the statements themselves ([Sql.insert_into],
    [Sql.delete_from]), which need no mapper. *)

Module Orm.
Import Sql Models.

Record Mapper := {
  class_ : string;
  mapped_tables : list Table;            (* base table first *)
  polymorphic_identity : option string;
}.

(** [User.__mapper_args__["polymorphic_on"]] *)
Definition polymorphic_on : string := "user_type".

Definition UserTypeDefinition_mapper : Mapper := {|
  class_ := "UserTypeDefinition";
  mapped_tables := [UserTypeDefinition];
  polymorphic_identity := None;
|}.

Definition User_mapper : Mapper := {|
  class_ := "User";
  mapped_tables := [User];
  polymorphic_identity := Some "user";
|}.

(** [class MilitaryUser(User)] *)
Definition MilitaryUser_mapper : Mapper := {|
  class_ := "MilitaryUser";
  mapped_tables := (mapped_tables User_mapper ++ [MilitaryUser])%list;
  polymorphic_identity := Some "military_user";
|}.

(** Discriminator value to mapped class, for the [User] hierarchy. *)
Definition polymorphic_map : list (string * Mapper) :=
  [("user", User_mapper); ("military_user", MilitaryUser_mapper)].

Definition attribute_names (m : Mapper) : gset string :=
  ⋃ (column_names <$> mapped_tables m).

(** The declarative constructor: the discriminator is set to the class's
    identity first, then the keyword arguments are assigned (so an explicit
    [user_type=] wins); a keyword that is no mapped attribute is refused. *)
Definition init_instance (m : Mapper) (kwargs : row) : result error row :=
  match elements (dom kwargs ∖ attribute_names m) with
  | k :: _ => Err (InvalidKeywordArgument (class_ m) k)
  | [] =>
      Ok (match polymorphic_identity m with
          | Some d => kwargs ∪ {[ polymorphic_on := VStr d ]}
          | None => kwargs
          end)
  end.

(** What the instance holds for an enumeration attribute, as bound for the
    column. *)
Definition bind_role (r : Enum.UserRole) : value :=
  match Enum.bind_processor Enum.role_type r with
  | Some s => VStr s
  | None => VNull
  end.

Definition bind_branch (b : option Enum.MilitaryBranch) : value :=
  match b with
  | Some b =>
      match Enum.bind_processor Enum.branch_type b with
      | Some s => VStr s
      | None => VNull
      end
  | None => VNull
  end.

(** Flushing a pending instance: one INSERT per table of the chain, base
    first; the primary key of the row just written is carried into the
    [id] of the next table. *)
Fixpoint flush_insert (e : env) (ts : list Table) (attrs : row)
    (db : database) : result error database :=
  match ts with
  | [] => Ok db
  | T :: ts' =>
      db' ← insert_into metadata e (tablename T)
              (filter (fun kv => kv.1 ∈ column_names T) attrs) db;
      flush_insert e ts'
        (match last (rows db' (tablename T)) with
         | Some r => <["id" := cell r "id"]> attrs
         | None => attrs
         end) db'
  end.

(** [session.add(instance); session.flush()] for a new instance built from
    keyword arguments *)
Definition session_add (e : env) (m : Mapper) (kwargs : row) (db : database)
  : result error database :=
  attrs ← init_instance m kwargs;
  flush_insert e (mapped_tables m) attrs db.

(** The class a [users] row is loaded as. *)
Definition polymorphic_mapper (base_row : row) : result error Mapper :=
  match cell base_row polymorphic_on with
  | VStr d =>
      match Enum.assoc d polymorphic_map with
      | Some m => Ok m
      | None => Err (NoSuchPolymorphicIdentity d)
      end
  | _ => Ok User_mapper
  end.



End Orm.

(** ** Vocabulary for stating properties of database states *)

Module Spec.
Import Sql Models Orm.

(** What [check_column] decides, as a proposition. *)
Definition column_holds (db : database) (t : string) (c : ColumnDef) : Prop :=
  type_ok c (rows db t) = true
  /\ (col_nullable c = false \/ col_primary_key c = true ->
      not_null_ok c (rows db t) = true)
  /\ (col_unique c = true \/ col_primary_key c = true ->
      unique_ok c (rows db t) = true)
  /\ fk_ok db c (rows db t) = true.

(** What [check] decides, as a proposition. *)
Definition valid (md : list Table) (db : database) : Prop :=
  Forall (fun T => Forall (column_holds db (tablename T)) (columns T)) md.

(** The tables of the concrete models that carry the audit columns. *)
Definition timestamped (t : string) : Prop :=
  t = tablename UserTypeDefinition \/ t = tablename User.

(** A statement that leaves the audit columns to their defaults: it names
    neither [created_on] nor [updated_on] among the values it supplies. *)
Definition leaves_stamps (s : statement) : Prop :=
  match s with
  | Insert _ params | Update _ _ _ params =>
      params !! "created_on" = None /\ params !! "updated_on" = None
  | Delete _ _ _ => True
  end.

(** States reached by statements that leave the audit columns alone, run
    against a clock that never goes back; the index is the latest clock
    reading. *)
Inductive disciplined : Z -> database -> Prop :=
| disciplined_empty clock : disciplined clock ∅
| disciplined_step clock db e s db' :
    disciplined clock db ->
    (clock <= now e)%Z ->
    leaves_stamps s ->
    execute metadata e s db = Ok db' ->
    disciplined (now e) db'.

(** Sample environments and states. *)
Definition env1 : env := {| now := 100; uuid4 := 1 |}.
Definition env2 : env := {| now := 200; uuid4 := 2 |}.

Definition from_ok (r : result error database) : database :=
  match r with Ok db => db | Err _ => ∅ end.

(** One military user, as two INSERTs: the base row with the
    discriminator of [MilitaryUser], then the extension row with the same
    [id] and the label the [branch] column stores for
    [MilitaryBranch.ARMY]. *)
Definition insert_base : statement :=
  Insert "users"
    {[ "name" := VStr "Ada"; "email" := VStr "ada@example.org";
       "user_type" := VStr "military_user" ]}.

Definition insert_extension : statement :=
  Insert "military_users" {[ "id" := VUuid 1; "branch" := VStr "ARMY" ]}.

Definition db_base : database :=
  from_ok (execute metadata env1 insert_base ∅).

Definition db_military : database :=
  from_ok (execute metadata env1 insert_extension db_base).

(** One user whose INSERT supplies both audit columns. *)
Definition insert_backdated : statement :=
  Insert "users"
    {[ "name" := VStr "Ada"; "email" := VStr "ada@example.org";
       "created_on" := VTime 10; "updated_on" := VTime 5 ]}.

Definition db_backdated : database :=
  from_ok (execute metadata env1 insert_backdated ∅).

(** One user type whose name is the empty string. *)
Definition insert_unnamed : statement :=
  Insert "user_type_definitions" {[ "name" := VStr "" ]}.

Definition db_unnamed : database :=
  from_ok (execute metadata env1 insert_unnamed ∅).

End Spec.

(** ** The HTTP declarations ([users_pyda_model.py], [users_routes.py]) *)

Module Api.

(** Field annotations of the response schemas. *)
Inductive annotation : Type :=
| str | bool_ | datetime | UUID7 | Json | UserRole | MilitaryBranch.

Record Schema := {
  schema_name : string;
  fields : list (string * annotation);
}.

(** [class UserSchema(BaseModel)] *)
Definition UserSchema : Schema := {|
  schema_name := "UserSchema";
  fields := [
    ("name", str); ("email", str); ("role", UserRole); ("is_active", bool_);
    ("user_type", str); ("custom_type_definition_id", UUID7);
    ("custom_fields", Json); ("id", UUID7);
    ("created_on", datetime); ("updated_on", datetime)
  ];
|}.

(** [class MilitaryUserSchema(UserSchema)] *)
Definition MilitaryUserSchema : Schema := {|
  schema_name := "MilitaryUserSchema";
  fields := (fields UserSchema ++ [
    ("rank", str); ("unit", str); ("mos", str); ("branch", MilitaryBranch);
    ("service_number", str); ("clearance_level", str)
  ])%list;
|}.

(** [status.HTTP_201_CREATED] *)
Definition HTTP_201_CREATED : nat := 201.

(** A registered path operation. *)
Record APIRoute := {
  path : string;
  methods : list string;
  response_model : option Schema;
  status_code : option nat;
  route_tags : list string;
  route_responses : gmap nat (gmap string string);
  endpoint : json -> option json;
}.

Record APIRouter := {
  prefix : string;
  tags : list string;
  responses : gmap nat (gmap string string);
  routes : list APIRoute;
}.

(** [APIRouter.add_api_route]: the route path is the router prefix
    followed by the given path, and the router's tags and responses are
    merged into the route's. *)
Definition add_api_route (r : APIRouter) (p : string)
    (f : json -> option json) (ms : list string)
    (model : option Schema) (code : option nat) : APIRouter :=
  {| prefix := prefix r;
     tags := tags r;
     responses := responses r;
     routes := (routes r ++ [
       {| path := prefix r ++ p;
          methods := ms;
          response_model := model;
          status_code := code;
          route_tags := tags r;
          route_responses := responses r;
          endpoint := f |} ])%list |}.

(** The [@router.post(path, response_model=..., status_code=...)]
    decorator applied to a handler. *)
Definition post (r : APIRouter) (p : string) (model : Schema) (code : nat)
    (f : json -> option json) : APIRouter :=
  add_api_route r p f ["POST"] (Some model) (Some code).

(** [async def create_user(user: UserSchema)]: the body is a docstring
    only, so a call returns [None]. *)
Definition create_user (user : json) : option json := None.

(** The module-level [router], after the decorator has run. *)
Definition router : APIRouter :=
  post {| prefix := "/users";
          tags := ["users"];
          responses := {[ 404%nat := {[ "description" := "User Not Found" ]} ]};
          routes := [] |}
       "/" UserSchema HTTP_201_CREATED create_user.

End Api.

(** ** Further vocabulary: rows that fit a table *)

Module Fit.
Import Sql.

(** What one column of a table asks of a row about to join the rows
    already there: a value of the column's type, not NULL where the column
    forbids it, not a value another row has where the column is unique, and
    a value present in the referenced column where it is a foreign key. *)
Definition cell_fits (db : database) (t : string) (r : row) (c : ColumnDef)
  : Prop :=
  coerce (col_type c) (cell r (col_name c)) = Some (cell r (col_name c))
  /\ (col_nullable c = false \/ col_primary_key c = true ->
      cell r (col_name c) ≠ VNull)
  /\ (col_unique c = true \/ col_primary_key c = true ->
      cell r (col_name c) = VNull
      \/ forall r0, r0 ∈ rows db t -> cell r0 (col_name c) ≠ cell r (col_name c))
  /\ (forall t' c', col_foreign_key c = Some (t', c') ->
      cell r (col_name c) = VNull
      \/ exists r', r' ∈ rows (<[t := (rows db t ++ [r])%list]> db) t'
                    /\ cell r' c' = cell r (col_name c)).

(** A string the storage takes as a character value: PostgreSQL refuses
    a text value that contains the NUL character, whatever the type of
    the column. *)
Fixpoint nul_free (s : string) : bool :=
  match s with
  | EmptyString => true
  | String a s' => negb (Ascii.eqb a Ascii.zero) && nul_free s'
  end.

End Fit.

(** ** Instance properties ([users_sqla_model.py]) *)

Module Instances.
Import Enum.

(** [User.is_admin]: [self.role == UserRole.ADMIN]. *)
Definition is_admin (u : Py.User) : bool :=
  bool_decide (Py.role u = ADMIN).

(** A mapped [MilitaryUser] instance: the inherited attributes and the
    nullable extension attributes. *)
Record MilitaryUser := {
  base : Py.User;
  rank : option string;
  unit_ : option string;
  mos : option string;
  branch : option MilitaryBranch;
  service_number : option string;
  clearance_level : option string;
}.

(** [MilitaryUser.full_title] *)
Definition full_title (m : MilitaryUser) : string :=
  match rank m with
  | Some r => r ++ " " ++ Py.name (base m)
  | None => Py.name (base m)
  end.

(** The member a stored [role] / [branch] cell is read back as. *)
Definition load_role (r : gmap string Sql.value) : option UserRole :=
  match Sql.cell r "role" with
  | Sql.VStr s => result_processor role_type s
  | _ => None
  end.

Definition load_branch (r : gmap string Sql.value)
  : option MilitaryBranch :=
  match Sql.cell r "branch" with
  | Sql.VStr s => result_processor branch_type s
  | _ => None
  end.

End Instances.

(** ** Names for further declared columns *)

Module MoreColumns.
Import Sql.

(** [User.custom_type_definition_id] *)
Definition User_custom_type_definition_id : ColumnDef :=
  Column "custom_type_definition_id" UUID
         [ForeignKey "user_type_definitions" "id"; nullable true; index true].

(** [User.is_active] *)
Definition User_is_active : ColumnDef :=
  Column "is_active" Boolean [default (Scalar (VBool true)); nullable false].

(** [User.custom_fields] *)
Definition User_custom_fields : ColumnDef :=
  Column "custom_fields" JSONB [nullable true; default Callable_dict].

(** [User.name] *)
Definition User_name : ColumnDef :=
  Column "name" (String_ 255) [nullable false].

(** The names of the declared tables. *)
Definition table_names : list string :=
  map tablename Models.metadata.

End MoreColumns.

(** ** Further sample states *)

Module Samples.
Import Sql Models Spec.

(** One user type, and one user of that type. *)
Definition insert_type : statement :=
  Insert "user_type_definitions" {[ "name" := VStr "Navy Personnel" ]}.

Definition insert_typed_user : statement :=
  Insert "users"
    {[ "name" := VStr "Ada"; "email" := VStr "ada@example.org";
       "custom_type_definition_id" := VUuid 1 ]}.

Definition db_type : database :=
  from_ok (execute metadata env1 insert_type ∅).

Definition db_typed : database :=
  from_ok (execute metadata env2 insert_typed_user db_type).

End Samples.

(** ** Validation against the schemas, and the handling of a request *)

Module Pydantic.
Import Api.

Inductive verror : Type :=
| Missing (field : string)        (* a declared field is absent *)
| Invalid (field : string)        (* a value does not fit its annotation *)
| ModelType.                      (* the input is no object at all *)

(** The value under a key of a parsed JSON object; of several members with
    the same key the last one counts. *)
Fixpoint obj_get (k : string) (members : list (string * json))
  : option json :=
  match members with
  | [] => None
  | (k', v) :: rest =>
      match obj_get k rest with
      | Some v' => Some v'
      | None => if decide (k' = k) then Some v else None
      end
  end.

Section Validation.
  (** Whether a JSON value fits a field annotation. *)
  Variable conforms : annotation -> json -> bool.

(** No field of the schemas has a default, so each one is required. *)
Definition validate_field (members : list (string * json))
    (f : string * annotation) : list verror :=
  match obj_get f.1 members with
  | None => [Missing f.1]
  | Some v => if conforms f.2 v then [] else [Invalid f.1]
  end.

(** Validation of an input against a schema: every violated field is
    reported; members that are no field of the schema are ignored. *)
Definition validate (s : Schema) (input : json) : list verror :=
  match input with
  | JObj members => flat_map (validate_field members) (fields s)
  | _ => [ModelType]
  end.

(** Validation of what a handler returned against the response model. *)
Definition validate_return (s : Schema) (ret : option json) : list verror :=
  match ret with
  | Some out => validate s out
  | None => [ModelType]
  end.

(** The status a request to a route with one body parameter is answered
    with: 422 when the body fails validation against the parameter's
    schema; otherwise the handler runs, and when the route has a response
    model and the returned value fails validation against it the answer is
    500; otherwise the declared status (200 when none is declared). *)
Definition respond (r : APIRoute) (param : Schema) (body : json) : nat :=
  match validate param body with
  | _ :: _ => 422
  | [] =>
      match response_model r with
      | Some model =>
          match validate_return model (endpoint r body) with
          | _ :: _ => 500
          | [] => match status_code r with Some c => c | None => 200 end
          end
      | None => match status_code r with Some c => c | None => 200 end
      end
  end.
End Validation.

(** The parameter of [create_user(user: UserSchema)]. *)
Definition create_user_param : Schema := UserSchema.

(** Sample per-field rules (strings for everything but the flag), a
    sample payload with all sixteen fields, and the registered route. *)
Definition sample_rules (a : annotation) (v : json) : bool :=
  match a, v with
  | bool_, JBool _ => true
  | bool_, _ => false
  | _, JStr _ => true
  | _, _ => false
  end.

Definition sample_military_payload : json :=
  JObj [("name", JStr "Ada"); ("email", JStr "ada@example.org");
        ("role", JStr "user"); ("is_active", JBool true);
        ("user_type", JStr "military_user");
        ("custom_type_definition_id",
         JStr "01890a5d-ac96-774b-bcce-b302099a8057");
        ("custom_fields", JStr "{}");
        ("id", JStr "01890a5d-ac96-774b-bcce-b302099a8058");
        ("created_on", JStr "2025-06-15T00:00:00Z");
        ("updated_on", JStr "2025-06-15T00:00:00Z");
        ("rank", JStr "CPT"); ("unit", JStr "1st"); ("mos", JStr "11A");
        ("branch", JStr "army"); ("service_number", JStr "123");
        ("clearance_level", JStr "Secret")].

Definition sample_route : APIRoute :=
  {| path := "/users/"; methods := ["POST"];
     response_model := Some UserSchema;
     status_code := Some HTTP_201_CREATED;
     route_tags := ["users"];
     route_responses := {[ 404%nat := {[ "description" := "User Not Found" ]} ]};
     endpoint := create_user |}.

End Pydantic.

(** * Properties *)

(** ** Custom-field accessors *)

Section CustomFields.
  Import Py.

  Implicit Types (w : world) (k : string) (v : json).

Ltac py_run :=
  cbv [set_custom_field get_custom_field mbind Py_bind
       getattr_custom_fields mret Py_ret dict_ dict_get deref raise
       new_dict dict_setitem setattr_custom_fields flag_modified];
  cbn [store self custom_fields modified].

(** One run of [set_custom_field], stated on the resulting world. *)
Lemma set_custom_field_run w k v :
  wf w ->
  exists r w',
    set_custom_field k v w = Ok (tt, w')
    /\ (r ∉ dom (store w))
    /\ custom_fields (self w') = Some r
    /\ store w' !! r = Some (<[k := v]> (base_document w))
    /\ (forall r0, r0 ∈ dom (store w) -> store w' !! r0 = store w !! r0)
    /\ modified (self w') = {["custom_fields"]} ∪ modified (self w)
    /\ wf w'.
Proof.
  intros Hwf. destruct w as [st [i c0 u0 n e ro a ut ct cf m]].
  unfold base_document, document, wf in *. cbn [store self custom_fields] in *.
  destruct cf as [r0|].
  - destruct (Hwf r0 eq_refl) as [d Hd]. cbn. rewrite Hd.
    set (r := fresh (dom st)).
    assert (Hr : r ∉ dom st) by apply is_fresh.
    exists r. eexists. split.
    { py_run. rewrite Hd. cbn [store self]. fold r.
      rewrite lookup_insert_eq. reflexivity. }
    cbn [store self custom_fields modified].
    rewrite insert_insert_eq, lookup_insert_eq.
    repeat split; try done.
    + intros r1 Hr1. rewrite lookup_insert_ne; [done|]. intros ->. done.
    + intros r1 [= <-]. rewrite lookup_insert_eq. eauto.
  - cbn. set (r1 := fresh (dom st)).
    set (r := fresh (dom (<[r1 := (∅ : gmap string json)]> st))).
    assert (Hr1 : r1 ∉ dom st) by apply is_fresh.
    assert (Hr : r ∉ dom (<[r1 := (∅ : gmap string json)]> st))
      by apply is_fresh.
    assert (Hne : r ≠ r1) by (intros ->; apply Hr; set_solver).
    assert (Hr' : r ∉ dom st) by (intros ?; apply Hr; set_solver).
    exists r. eexists. split.
    { py_run. fold r1. rewrite lookup_insert_eq. cbn [store self]. fold r.
      rewrite lookup_insert_eq. reflexivity. }
    cbn [store self custom_fields modified].
    rewrite insert_insert_eq, lookup_insert_eq.
    repeat split; try done.
    + intros r0 Hr0. rewrite !lookup_insert_ne; [done| |]; intros ->; done.
    + intros r0 [= <-]. rewrite lookup_insert_eq. eauto.
Qed.

Lemma sample_world_wf : wf sample_world.
Proof. intros r [= <-]. eexists. reflexivity. Qed.

(** C1: for every user state, field name and value, [set_custom_field]
    returns normally; afterwards the instance's [custom_fields] attribute
    points at a dictionary object that did not exist before (so no
    existing dictionary, in particular the previous document, was edited
    in place: every dictionary of the old store is unchanged), that new
    document maps the field name to the value and agrees with the previous
    document on every other key, ["custom_fields"] is among the attributes
    flagged as modified, and when the attribute was [None] the previous
    document counts as empty, so the new one is exactly the single
    binding. *)
Theorem set_custom_field_stores (w : world) (k : string) (v : json) :
  wf w ->
  exists r w' d',
    set_custom_field k v w = Ok (tt, w')
    /\ custom_fields (self w') = Some r
    /\ (r ∉ dom (store w))
    /\ (forall r0, r0 ∈ dom (store w) -> store w' !! r0 = store w !! r0)
    /\ document w' = Some d'
    /\ d' !! k = Some v
    /\ (forall k', k' ≠ k -> d' !! k' = base_document w !! k')
    /\ (forall d, document w = Some d -> d' = <[k := v]> d)
    /\ (custom_fields (self w) = None -> d' = {[ k := v ]})
    /\ ("custom_fields" ∈ modified (self w')).
Proof.
  intros Hwf.
  destruct (set_custom_field_run w k v Hwf)
    as (r & w' & Hrun & Hfresh & Hcf & Hst & Hold & Hmod & _).
  exists r, w', (<[k := v]> (base_document w)).
  repeat split; try done.
  - unfold document. rewrite Hcf. exact Hst.
  - apply lookup_insert_eq.
  - intros k' Hk'. rewrite lookup_insert_ne; done.
  - intros d Hd. unfold base_document. rewrite Hd. reflexivity.
  - intros Hnone. unfold base_document, document. rewrite Hnone.
    reflexivity.
  - rewrite Hmod. apply elem_of_union_l, elem_of_singleton. reflexivity.
Qed.

Lemma set_custom_field_stores_witness :
  wf sample_world /\
  exists r w' d',
    set_custom_field "rank" (JStr "CPT") sample_world = Ok (tt, w')
    /\ custom_fields (self w') = Some r
    /\ (r ∉ dom (store sample_world))
    /\ (forall r0, r0 ∈ dom (store sample_world) ->
          store w' !! r0 = store sample_world !! r0)
    /\ document w' = Some d'
    /\ d' !! "rank" = Some (JStr "CPT")
    /\ (forall k', k' ≠ "rank" -> d' !! k' = base_document sample_world !! k')
    /\ (forall d, document sample_world = Some d ->
          d' = <["rank" := JStr "CPT"]> d)
    /\ (custom_fields (self sample_world) = None ->
          d' = {[ "rank" := JStr "CPT" ]})
    /\ ("custom_fields" ∈ modified (self w')).
Proof.
  split.
  - intros r [= <-]. eexists. reflexivity.
  - apply (set_custom_field_stores sample_world "rank" (JStr "CPT")).
    intros r [= <-]. eexists. reflexivity.
Defined.

(** C2: applying [set_custom_field] twice with the same field name and
    value leaves the instance with the same document (and the same set of
    flagged attributes) as applying it once. *)
Theorem set_custom_field_idempotent (w : world) (k : string) (v : json) :
  wf w ->
  exists w1 w2,
    set_custom_field k v w = Ok (tt, w1)
    /\ set_custom_field k v w1 = Ok (tt, w2)
    /\ document w2 = document w1
    /\ modified (self w2) = modified (self w1).
Proof.
  intros Hwf.
  destruct (set_custom_field_run w k v Hwf)
    as (r1 & w1 & Hrun1 & _ & Hcf1 & Hst1 & _ & Hmod1 & Hwf1).
  destruct (set_custom_field_run w1 k v Hwf1)
    as (r2 & w2 & Hrun2 & _ & Hcf2 & Hst2 & _ & Hmod2 & _).
  exists w1, w2. repeat split; try done.
  - assert (Hd1 : document w1 = Some (<[k := v]> (base_document w))).
    { unfold document. rewrite Hcf1. exact Hst1. }
    unfold document at 1. rewrite Hcf2. cbn. rewrite Hst2.
    unfold base_document at 1. rewrite Hd1.
    rewrite insert_insert_eq. reflexivity.
  - rewrite Hmod2, Hmod1, (assoc_L (∪)), (idemp_L (∪)). reflexivity.
Qed.

Lemma set_custom_field_idempotent_witness :
  wf sample_world /\
  exists w1 w2,
    set_custom_field "rank" (JStr "CPT") sample_world = Ok (tt, w1)
    /\ set_custom_field "rank" (JStr "CPT") w1 = Ok (tt, w2)
    /\ document w2 = document w1
    /\ modified (self w2) = modified (self w1).
Proof.
  split.
  - intros r [= <-]. eexists. reflexivity.
  - apply (set_custom_field_idempotent sample_world "rank" (JStr "CPT")).
    intros r [= <-]. eexists. reflexivity.
Defined.

(** C10: [get_custom_field] returns normally on every user state, field
    name and default, and leaves the state as it was; the result is the
    default when the [custom_fields] attribute is [None] or its document
    has no entry for the field name, and the stored value otherwise. *)
Theorem get_custom_field_total (w : world) (k : string) (dflt : json) :
  wf w ->
  exists x,
    get_custom_field k dflt w = Ok (x, w)
    /\ (custom_fields (self w) = None -> x = dflt)
    /\ (forall d, document w = Some d -> d !! k = None -> x = dflt)
    /\ (forall d v, document w = Some d -> d !! k = Some v -> x = v).
Proof.
  intros Hwf. destruct w as [st [i c0 u0 n e ro a ut ct cf m]].
  unfold document, wf in *. cbn [store self custom_fields] in *.
  destruct cf as [r|].
  - destruct (Hwf r eq_refl) as [d Hd].
    exists (match d !! k with Some v => v | None => dflt end).
    split; [py_run; rewrite Hd; reflexivity|].
    cbn. rewrite Hd. repeat split.
    + discriminate.
    + intros d0 [= <-] ->. reflexivity.
    + intros d0 v [= <-] ->. reflexivity.
  - exists dflt. split; [reflexivity|]. cbn. repeat split; discriminate.
Qed.

Lemma get_custom_field_total_witness :
  wf sample_world /\
  exists x,
    get_custom_field "ship_assignment" JNull sample_world
      = Ok (x, sample_world)
    /\ (custom_fields (self sample_world) = None -> x = JNull)
    /\ (forall d, document sample_world = Some d ->
          d !! "ship_assignment" = None -> x = JNull)
    /\ (forall d v, document sample_world = Some d ->
          d !! "ship_assignment" = Some v -> x = v).
Proof.
  split.
  - intros r [= <-]. eexists. reflexivity.
  - apply (get_custom_field_total sample_world "ship_assignment" JNull).
    intros r [= <-]. eexists. reflexivity.
Defined.

(** Concrete runs. *)
Example get_custom_field_present :
  get_custom_field "ship_assignment" JNull sample_world
  = Ok (JStr "USS Enterprise", sample_world).
Proof. reflexivity. Qed.

Example get_custom_field_absent :
  get_custom_field "rank" (JStr "n/a") sample_world
  = Ok (JStr "n/a", sample_world).
Proof. reflexivity. Qed.

Example set_custom_field_on_none :
  (λ r, match r with
        | Ok (_, w') => (custom_fields (self w'), document w')
        | Err _ => (None, None)
        end)
    (set_custom_field "rank" (JStr "CPT")
       {| store := ∅; self := sample_user None |})
  = (Some 2%positive, Some {[ "rank" := JStr "CPT" ]}).
Proof. vm_compute. reflexivity. Qed.
End CustomFields.

(** ** The storage engine *)

Section EngineFacts.
  Import Sql Spec.

Lemma bind_Ok {E A B} (m : result E A) (f : A -> result E B) (b : B) :
  m ≫= f = Ok b -> exists a, m = Ok a /\ f a = Ok b.
Proof. destruct m as [a|e]; [eauto|discriminate]. Qed.

Lemma check_column_spec db t c :
  check_column db t c = Ok tt <-> column_holds db t c.
Proof.
  unfold check_column, column_holds.
  destruct (type_ok c (rows db t)), (col_nullable c), (col_primary_key c),
    (not_null_ok c (rows db t)), (col_unique c), (unique_ok c (rows db t)),
    (fk_ok db c (rows db t)); simpl; intuition congruence.
Qed.

Lemma check_columns_spec db t cs :
  check_columns db t cs = Ok tt <-> Forall (column_holds db t) cs.
Proof.
  induction cs as [|c cs IH]; simpl.
  - split; [constructor|reflexivity].
  - rewrite Forall_cons, <- IH, <- check_column_spec.
    destruct (check_column db t c) as [[]|]; simpl;
      intuition congruence.
Qed.

Lemma check_spec md db : check md db = Ok tt <-> valid md db.
Proof.
  unfold valid. induction md as [|T md IH]; simpl.
  - split; [constructor|reflexivity].
  - rewrite Forall_cons, <- IH, <- check_columns_spec.
    destruct (check_columns db (tablename T) (columns T)) as [[]|]; simpl;
      intuition congruence.
Qed.

Lemma commit_Ok md db1 db2 :
  commit md db1 = Ok db2 -> db2 = db1 /\ valid md db1.
Proof.
  unfold commit. intros H. apply bind_Ok in H as ([] & Hc & [= <-]).
  split; [reflexivity|]. apply check_spec, Hc.
Qed.

Lemma rows_empty t : rows ∅ t = [].
Proof. unfold rows. rewrite lookup_empty. reflexivity. Qed.

Lemma rows_insert_eq db t rs : rows (<[t := rs]> db) t = rs.
Proof. unfold rows. rewrite lookup_insert_eq. reflexivity. Qed.

Lemma rows_insert_ne db t t' rs :
  t ≠ t' -> rows (<[t := rs]> db) t' = rows db t'.
Proof. intros H. unfold rows. rewrite lookup_insert_ne; done. Qed.

Lemma valid_empty md : valid md ∅.
Proof.
  apply Forall_forall. intros T _. apply Forall_forall. intros c _.
  unfold column_holds, fk_ok. rewrite rows_empty.
  split; [reflexivity|]. split; [reflexivity|]. split.
  - intros _. unfold unique_ok. apply bool_decide_eq_true. constructor.
  - destruct (col_foreign_key c) as [[? ?]|]; reflexivity.
Qed.

Lemma table_named_Ok md t T :
  table_named md t = Ok T -> T ∈ md /\ tablename T = t.
Proof.
  unfold table_named.
  destruct (find _ md) as [T'|] eqn:Hf; [|discriminate].
  intros [= ->]. apply find_some in Hf as [Hin Ht].
  apply bool_decide_eq_true in Ht. split; [|exact Ht].
  apply list_elem_of_In, Hin.
Qed.

(** What each kind of statement does when it succeeds. *)
Lemma insert_into_Ok md e t params db db' :
  insert_into md e t params db = Ok db' ->
  exists T r,
    T ∈ md /\ tablename T = t
    /\ build_row t (insert_value e params) (columns T) = Ok r
    /\ db' = <[t := (rows db t ++ [r])%list]> db
    /\ valid md db'.
Proof.
  unfold insert_into. intros H.
  apply bind_Ok in H as (T & HT & H).
  apply bind_Ok in H as ([] & _ & H).
  apply bind_Ok in H as (r & Hr & H).
  apply commit_Ok in H as [-> Hv].
  apply table_named_Ok in HT as [HT Ht]. eauto 10.
Qed.

Lemma update_where_Ok md e t wc wv params db db' :
  update_where md e t wc wv params db = Ok db' ->
  exists T rs,
    T ∈ md /\ tablename T = t
    /\ update_rows e T wc wv params (rows db t) = Ok rs
    /\ db' = <[t := rs]> db
    /\ valid md db'.
Proof.
  unfold update_where. intros H.
  apply bind_Ok in H as (T & HT & H).
  apply bind_Ok in H as ([] & _ & H).
  apply bind_Ok in H as (rs & Hrs & H).
  apply commit_Ok in H as [-> Hv].
  apply table_named_Ok in HT as [HT Ht]. eauto 10.
Qed.

Lemma delete_from_Ok md t wc wv db db' :
  delete_from md t wc wv db = Ok db' ->
  db' = <[t := filter (fun r => ¬ matches wc wv r) (rows db t)]> db
  /\ valid md db'.
Proof.
  unfold delete_from. intros H.
  apply bind_Ok in H as (T & HT & H).
  apply bind_Ok in H as ([] & _ & H).
  apply commit_Ok in H as [-> Hv]. done.
Qed.

Lemma execute_valid md e s db db' :
  execute md e s db = Ok db' -> valid md db'.
Proof.
  destruct s as [t params|t wc wv params|t wc wv]; simpl; intros H.
  - apply insert_into_Ok in H as (? & ? & ? & ? & ? & ? & ?); done.
  - apply update_where_Ok in H as (? & ? & ? & ? & ? & ? & ?); done.
  - apply delete_from_Ok in H as [? ?]; done.
Qed.

(** Every reachable state satisfies every declared constraint. *)
Lemma reachable_valid md db : reachable md db -> valid md db.
Proof.
  induction 1 as [|db e s db' _ _ Hex].
  - apply valid_empty.
  - eapply execute_valid, Hex.
Qed.

Lemma valid_column md db T c :
  valid md db -> T ∈ md -> c ∈ columns T ->
  column_holds db (tablename T) c.
Proof.
  intros Hv HT Hc. unfold valid in Hv.
  rewrite Forall_forall in Hv. specialize (Hv T HT).
  rewrite Forall_forall in Hv. exact (Hv c Hc).
Qed.

(** The constraints of a column, read as statements about rows. *)
Lemma forallb_elem_of {A} (f : A -> bool) (l : list A) :
  forallb f l = true <-> forall x, x ∈ l -> f x = true.
Proof.
  rewrite forallb_forall. split; intros H x Hx; apply H;
    apply list_elem_of_In; exact Hx.
Qed.

Lemma type_ok_elem c rs r :
  type_ok c rs = true -> r ∈ rs ->
  coerce (col_type c) (cell r (col_name c)) = Some (cell r (col_name c)).
Proof.
  unfold type_ok. rewrite forallb_elem_of. intros H Hr.
  eapply bool_decide_eq_true_1, H, Hr.
Qed.

Lemma not_null_ok_elem c rs r :
  not_null_ok c rs = true -> r ∈ rs -> cell r (col_name c) ≠ VNull.
Proof.
  unfold not_null_ok. rewrite forallb_elem_of. intros H Hr.
  eapply bool_decide_eq_true_1, H, Hr.
Qed.

Lemma fk_ok_elem db c rs t' c' r :
  fk_ok db c rs = true -> col_foreign_key c = Some (t', c') -> r ∈ rs ->
  cell r (col_name c) = VNull
  \/ exists r', r' ∈ rows db t' /\ cell r' c' = cell r (col_name c).
Proof.
  unfold fk_ok. intros H Hfk Hr. rewrite Hfk, forallb_elem_of in H.
  specialize (H r Hr). apply orb_true_iff in H as [H|H].
  - left. apply bool_decide_eq_true in H. exact H.
  - right. apply bool_decide_eq_true in H. unfold column_values in H.
    apply list_elem_of_fmap in H as (r' & Heq & Hr'). eauto.
Qed.

Lemma NoDup_filter_fmap_lookup {A B} (f : A -> B) (P : B -> Prop)
    `{forall b, Decision (P b)} (l : list A) (i j : nat) (a b : A) :
  NoDup (filter P (f <$> l)) ->
  l !! i = Some a -> l !! j = Some b ->
  P (f a) -> f a = f b -> i = j.
Proof.
  revert i j. induction l as [|x l IH]; intros i j Hnd Hi Hj HP Heq;
    [discriminate|].
  assert (Htail : NoDup (filter P (f <$> l))).
  { simpl in Hnd. rewrite filter_cons in Hnd.
    destruct (decide (P (f x))); [apply NoDup_cons in Hnd as [_ ?]|]; done. }
  assert (Hhead : forall k y, l !! k = Some y -> P (f x) -> f x = f y -> False).
  { intros k y Hk HPx Hxy. simpl in Hnd. rewrite filter_cons in Hnd.
    destruct (decide (P (f x))); [|done].
    apply NoDup_cons in Hnd as [Hnin _]. apply Hnin.
    apply list_elem_of_filter. split; [done|].
    apply list_elem_of_fmap. exists y. split; [done|].
    eapply list_elem_of_lookup_2, Hk. }
  destruct i as [|i], j as [|j]; simpl in Hi, Hj.
  - reflexivity.
  - injection Hi as ->. exfalso. eapply Hhead; eauto.
  - injection Hj as ->. exfalso. eapply (Hhead i a); eauto.
    rewrite <- Heq. exact HP.
  - f_equal. eapply IH; eauto.
Qed.

Lemma unique_ok_lookup c rs i j r1 r2 :
  unique_ok c rs = true ->
  rs !! i = Some r1 -> rs !! j = Some r2 ->
  cell r1 (col_name c) ≠ VNull ->
  cell r1 (col_name c) = cell r2 (col_name c) -> i = j.
Proof.
  unfold unique_ok, column_values. intros H Hi Hj Hnn Heq.
  apply bool_decide_eq_true in H.
  exact (NoDup_filter_fmap_lookup (fun r => cell r (col_name c))
           (fun v => v ≠ VNull) rs i j r1 r2 H Hi Hj Hnn Heq).
Qed.

(** A built row holds, under each column name, the coerced value. *)
Lemma build_row_lookup t f cs r c :
  build_row t f cs = Ok r ->
  NoDup (col_name <$> cs) -> c ∈ cs ->
  exists v, coerce (col_type c) (f c) = Some v /\ r !! col_name c = Some v.
Proof.
  revert r. induction cs as [|c0 cs IH]; intros r Hb Hnd Hc;
    [by apply elem_of_nil in Hc|].
  simpl in Hb. destruct (coerce (col_type c0) (f c0)) as [v0|] eqn:Hv0;
    [|discriminate].
  apply bind_Ok in Hb as (r0 & Hr0 & [= <-]).
  rewrite fmap_cons in Hnd. apply NoDup_cons in Hnd as [Hnin Hnd].
  apply elem_of_cons in Hc as [->|Hc].
  - exists v0. split; [done|]. apply lookup_insert_eq.
  - destruct (IH r0 Hr0 Hnd Hc) as (v & Hv & Hl).
    exists v. split; [done|]. rewrite lookup_insert_ne; [done|].
    intros Heq. apply Hnin. rewrite Heq.
    apply list_elem_of_fmap. eauto.
Qed.

Lemma build_row_cell t f cs r c :
  build_row t f cs = Ok r ->
  NoDup (col_name <$> cs) -> c ∈ cs ->
  coerce (col_type c) (f c) = Some (cell r (col_name c)).
Proof.
  intros Hb Hnd Hc.
  destruct (build_row_lookup t f cs r c Hb Hnd Hc) as (v & Hv & Hl).
  unfold cell. rewrite Hl. exact Hv.
Qed.

(** Removing rows cannot break a type, NOT NULL or UNIQUE constraint;
    a FOREIGN KEY survives if no remaining reference loses its
    target. *)
Lemma sublist_filter_mono {A} (P : A -> Prop) `{forall x, Decision (P x)}
    (l1 l2 : list A) :
  l1 `sublist_of` l2 -> filter P l1 `sublist_of` filter P l2.
Proof.
  induction 1 as [|x l1 l2 _ IH|x l1 l2 _ IH]; rewrite ?filter_cons.
  - constructor.
  - destruct (decide (P x)); [by constructor|done].
  - destruct (decide (P x)); [by constructor|done].
Qed.

Lemma type_ok_sublist c rs rs' :
  rs' `sublist_of` rs -> type_ok c rs = true -> type_ok c rs' = true.
Proof.
  unfold type_ok. rewrite !forallb_elem_of. intros Hs H r Hr.
  apply H. eapply elem_of_sublist; eauto.
Qed.

Lemma not_null_ok_sublist c rs rs' :
  rs' `sublist_of` rs -> not_null_ok c rs = true ->
  not_null_ok c rs' = true.
Proof.
  unfold not_null_ok. rewrite !forallb_elem_of. intros Hs H r Hr.
  apply H. eapply elem_of_sublist; eauto.
Qed.

Lemma unique_ok_sublist c rs rs' :
  rs' `sublist_of` rs -> unique_ok c rs = true -> unique_ok c rs' = true.
Proof.
  unfold unique_ok, column_values. intros Hs H.
  apply bool_decide_eq_true in H. apply bool_decide_eq_true.
  eapply sublist_NoDup; [exact H|].
  apply sublist_filter_mono. by apply fmap_sublist.
Qed.

Lemma fk_ok_intro db c rs :
  (forall t' c', col_foreign_key c = Some (t', c') ->
     forall r, r ∈ rs ->
       cell r (col_name c) = VNull
       \/ exists r', r' ∈ rows db t' /\ cell r' c' = cell r (col_name c)) ->
  fk_ok db c rs = true.
Proof.
  unfold fk_ok. destruct (col_foreign_key c) as [[t' c']|]; [|done].
  intros H. apply forallb_elem_of. intros r Hr.
  apply orb_true_iff.
  destruct (H t' c' eq_refl r Hr) as [Hn|(r' & Hr' & Heq)].
  - left. apply bool_decide_eq_true. exact Hn.
  - right. apply bool_decide_eq_true. unfold column_values.
    apply list_elem_of_fmap. eauto.
Qed.

Lemma column_holds_shrink md db t rs' T c :
  valid md db -> rs' `sublist_of` rows db t ->
  T ∈ md -> c ∈ columns T ->
  (forall c', col_foreign_key c = Some (t, c') ->
     forall r, r ∈ rows (<[t := rs']> db) (tablename T) ->
       cell r (col_name c) = VNull
       \/ exists r', r' ∈ rs' /\ cell r' c' = cell r (col_name c)) ->
  column_holds (<[t := rs']> db) (tablename T) c.
Proof.
  intros Hv Hs HT Hc Hfk.
  destruct (valid_column md db T c Hv HT Hc) as (Hty & Hnn & Hun & Hf).
  assert (Hsub : rows (<[t := rs']> db) (tablename T)
                 `sublist_of` rows db (tablename T)).
  { destruct (decide (t = tablename T)) as [<-|Hne].
    - rewrite rows_insert_eq. exact Hs.
    - rewrite rows_insert_ne; done. }
  split; [eapply type_ok_sublist; eauto|].
  split; [intros H; eapply not_null_ok_sublist; eauto|].
  split; [intros H; eapply unique_ok_sublist; eauto|].
  apply fk_ok_intro. intros t' c' Hcf r Hr.
  destruct (decide (t = t')) as [<-|Hne].
  - rewrite rows_insert_eq. eapply Hfk; eauto.
  - rewrite rows_insert_ne by done.
    eapply fk_ok_elem; eauto. eapply elem_of_sublist; eauto.
Qed.

Lemma valid_shrink md db t rs' :
  valid md db -> rs' `sublist_of` rows db t ->
  (forall T c c', T ∈ md -> c ∈ columns T ->
     col_foreign_key c = Some (t, c') ->
     forall r, r ∈ rows (<[t := rs']> db) (tablename T) ->
       cell r (col_name c) = VNull
       \/ exists r', r' ∈ rs' /\ cell r' c' = cell r (col_name c)) ->
  valid md (<[t := rs']> db).
Proof.
  intros Hv Hs Hfk. apply Forall_forall. intros T HT.
  apply Forall_forall. intros c Hc.
  eapply column_holds_shrink; eauto.
Qed.

(** Each row an UPDATE leaves behind is an old row, untouched or
    rebuilt. *)
Lemma update_rows_elem e T wc wv params rs rs' r' :
  update_rows e T wc wv params rs = Ok rs' -> r' ∈ rs' ->
  exists r, r ∈ rs
    /\ (r' = r
        \/ build_row (tablename T) (update_value e params r) (columns T)
           = Ok r').
Proof.
  revert rs'. induction rs as [|r rs IH]; intros rs' Hup Hr'; simpl in Hup.
  - injection Hup as <-. by apply elem_of_nil in Hr'.
  - apply bind_Ok in Hup as (r1 & Hr1 & Hup).
    apply bind_Ok in Hup as (rs1 & Hrs1 & [= <-]).
    apply elem_of_cons in Hr' as [->|Hr'].
    + exists r. split; [left|].
      destruct (decide (matches wc wv r)); [right; exact Hr1|].
      left. congruence.
    + destruct (IH rs1 Hrs1 Hr') as (r0 & Hr0 & Hcase).
      exists r0. split; [by right|exact Hcase].
Qed.

(** When a DELETE goes through. *)
Lemma delete_from_spec md t wc wv db T :
    table_named md t = Ok T -> known_columns T {[wc]} = Ok tt ->
    valid md (<[t := filter (fun r => ¬ matches wc wv r) (rows db t)]> db) ->
    delete_from md t wc wv db
    = Ok (<[t := filter (fun r => ¬ matches wc wv r) (rows db t)]> db).
  Proof.
    intros HT Hk Hv. unfold delete_from, commit. rewrite HT. simpl.
    rewrite Hk. simpl. apply check_spec in Hv. rewrite Hv. reflexivity.
  Qed.
End EngineFacts.

(** ** Enumerations as persisted *)

Section Enumerations.
  Import Enum Sql Models Orm Spec.

(** The role column persists member values. *)
Lemma role_persisted_by_value (r : UserRole) :
  bind_processor role_type r = Some (Enum.value r)
  /\ result_processor role_type (Enum.value r) = Some r.
Proof. destruct r; split; reflexivity. Qed.

Lemma role_labels : enums role_type = ["admin"; "user"].
Proof. reflexivity. Qed.

Lemma branch_labels :
  enums branch_type
  = ["ARMY"; "NAVY"; "AIR_FORCE"; "MARINES"; "SPACE_FORCE"; "COAST_GUARD"].
Proof. reflexivity. Qed.

(** C3: what the two enumeration columns persist.  The role column, built
    with a [values_callable], stores each member's value (["admin"],
    ["user"]).  The branch column, built without one, stores each member's
    name (["ARMY"], ..., ["COAST_GUARD"]), which differs from the member's
    lowercase value; the lowercase value is not even among the labels the
    branch column accepts. *)
Theorem branch_column_persists_member_names :
  (forall r : UserRole, bind_role r = VStr (Enum.value r))
  /\ (forall b : MilitaryBranch,
        bind_branch (Some b) = VStr (Enum.name b)
        /\ bind_branch (Some b) ≠ VStr (Enum.value b)
        /\ coerce (col_type MilitaryUser_branch) (VStr (Enum.name b))
           = Some (VStr (Enum.name b))
        /\ coerce (col_type MilitaryUser_branch) (VStr (Enum.value b)) = None)
  /\ column_values "branch" (rows db_military "military_users")
     = [VStr "ARMY"].
Proof.
  split; [intros []; reflexivity|]. split.
  - intros []; repeat split; try reflexivity; discriminate.
  - vm_compute. reflexivity.
Qed.
End Enumerations.

(** ** The user router *)

Section Router.
  Import Api.

(** C9: the router holds exactly one route; it answers POST on
    [/users/], declares status 201 and [UserSchema] as response model, and
    carries the router-level 404 response whose description is
    "User Not Found"; its handler returns nothing for every request
    body. *)
Theorem router_registers_create_user :
  exists r : APIRoute,
    routes router = [r]
    /\ path r = "/users/"
    /\ methods r = ["POST"]
    /\ status_code r = Some 201%nat
    /\ response_model r = Some UserSchema
    /\ responses router !! 404%nat
       = Some {[ "description" := "User Not Found" ]}
    /\ route_responses r !! 404%nat
       = Some {[ "description" := "User Not Found" ]}
    /\ dom (responses router) = {[ 404%nat ]}
    /\ (forall user : json, endpoint r user = None).
Proof.
  eexists. split; [reflexivity|].
  repeat split; try reflexivity.
Qed.
End Router.

(** ** The declared schema *)

Section SchemaFacts.
  Import Sql Models Orm Spec.

Local Ltac by_computation :=
  eapply bool_decide_eq_true_1; vm_compute; reflexivity.

Local Ltac listed := vm_compute; repeat constructor.

Lemma UserTypeDefinition_declared : UserTypeDefinition ∈ metadata.
Proof. listed. Qed.

Lemma User_declared : User ∈ metadata.
Proof. listed. Qed.

Lemma MilitaryUser_declared : MilitaryUser ∈ metadata.
Proof. listed. Qed.

Lemma declared_tables T :
  T ∈ metadata -> T = UserTypeDefinition \/ T = User \/ T = MilitaryUser.
Proof.
  intros H. apply list_elem_of_In in H. simpl in H.
  destruct H as [<-|[<-|[<-|[]]]]; auto.
Qed.

Lemma table_of_name T t :
  T ∈ metadata -> tablename T = t ->
  (t = "user_type_definitions" -> T = UserTypeDefinition)
  /\ (t = "users" -> T = User)
  /\ (t = "military_users" -> T = MilitaryUser).
Proof.
  intros H <-. apply declared_tables in H as [-> | [-> | ->]];
    repeat split; intros Ht; try reflexivity; discriminate Ht.
Qed.

Lemma column_names_NoDup T :
  T ∈ metadata -> NoDup (col_name <$> columns T).
Proof.
  intros H. apply declared_tables in H as [-> | [-> | ->]]; by_computation.
Qed.

(** *** [user_type_definitions.name] *)

Lemma name_rows_not_null db r :
  valid metadata db -> r ∈ rows db "user_type_definitions" ->
  exists s, cell r "name" = VStr s.
Proof.
  intros Hv Hr.
  destruct (valid_column metadata db UserTypeDefinition
              UserTypeDefinition_name Hv)
    as (Hty & Hnn & _); [listed|listed|].
  specialize (Hnn (or_introl eq_refl)).
  pose proof (not_null_ok_elem _ _ _ Hnn Hr) as Hne.
  pose proof (type_ok_elem _ _ _ Hty Hr) as Hco.
  change (col_name UserTypeDefinition_name) with "name" in *.
  change (col_type UserTypeDefinition_name) with (String_ 100) in *.
  destruct (cell r "name") as [|s| | | |]; try discriminate; [done|eauto].
Qed.

(** C8, as the code has it: in every reachable state each
    [user_type_definitions] row has a non-NULL string as its name, and an
    INSERT that supplies no name, or NULL, is refused.  Nothing is said of
    the empty string, which is a string like any other to the column. *)
Theorem user_type_name_not_null (db : database) :
  reachable metadata db ->
  (forall r, r ∈ rows db "user_type_definitions" ->
     exists s, cell r "name" = VStr s)
  /\ (forall e params,
        params !! "name" = None \/ params !! "name" = Some VNull ->
        exists err,
          insert_into metadata e "user_type_definitions" params db = Err err).
Proof.
  intros Hreach. apply reachable_valid in Hreach as Hv. split.
  - intros r Hr. exact (name_rows_not_null db r Hv Hr).
  - intros e params Hname.
    destruct (insert_into metadata e "user_type_definitions" params db)
      as [db'|err] eqn:Hins; [exfalso|eauto].
    apply insert_into_Ok in Hins as (T & r & HT & Ht & Hb & -> & Hv').
    pose proof (column_names_NoDup T HT) as Hnd.
    destruct (table_of_name T _ HT Ht) as (HU & _). rewrite (HU eq_refl) in *.
    pose proof (build_row_cell _ _ _ r UserTypeDefinition_name Hb Hnd) as Hc.
    destruct (name_rows_not_null _ r Hv') as [s Hs].
    { rewrite rows_insert_eq. apply elem_of_app. right. apply list_elem_of_singleton. reflexivity. }
    assert (Hin : insert_value e params UserTypeDefinition_name = VNull).
    { unfold insert_value.
      change (col_name UserTypeDefinition_name) with "name".
      destruct Hname as [-> | ->]; reflexivity. }
    rewrite Hin in Hc. specialize (Hc ltac:(listed)).
    change (col_name UserTypeDefinition_name) with "name" in Hc.
    simpl in Hc. congruence.
Qed.

Lemma db_unnamed_reachable : reachable metadata db_unnamed.
Proof.
  apply (reachable_step metadata ∅ env1 insert_unnamed);
    [apply reachable_empty | by_computation].
Qed.


Lemma user_type_name_not_null_witness :
  reachable metadata db_unnamed
  /\ (forall r, r ∈ rows db_unnamed "user_type_definitions" ->
        exists s, cell r "name" = VStr s)
  /\ (forall e params,
        params !! "name" = None \/ params !! "name" = Some VNull ->
        exists err,
          insert_into metadata e "user_type_definitions" params db_unnamed
          = Err err).
Proof.
  split.
  - apply (reachable_step metadata ∅ env1 insert_unnamed);
      [apply reachable_empty | by_computation].
  - apply (user_type_name_not_null db_unnamed).
    apply (reachable_step metadata ∅ env1 insert_unnamed);
      [apply reachable_empty | by_computation].
Defined.

(** C8, as stated, fails: a [UserTypeDefinition] whose name is the empty
    string is accepted and persisted. *)
Lemma empty_name_accepted :
  insert_into metadata env1 "user_type_definitions"
    {[ "name" := VStr "" ]} ∅ = Ok db_unnamed
  /\ reachable metadata db_unnamed
  /\ column_values "name" (rows db_unnamed "user_type_definitions")
     = [VStr ""].
Proof.
  split; [by_computation|]. split; [|vm_compute; reflexivity].
  exact db_unnamed_reachable.
Qed.

(** The refusal of a missing name is a NOT NULL violation. *)
Example missing_name_refused :
  insert_into metadata env1 "user_type_definitions"
    {[ "description" := VStr "no name" ]} ∅
  = Err (NotNullViolation "user_type_definitions" "name").
Proof. vm_compute. reflexivity. Qed.

(** *** [users.email] *)

Lemma email_rows db :
  valid metadata db ->
  unique_ok User_email (rows db "users") = true
  /\ (forall r, r ∈ rows db "users" ->
        cell r "email" ≠ VNull
        /\ coerce (String_ 255) (cell r "email") = Some (cell r "email")).
Proof.
  intros Hv.
  destruct (valid_column metadata db User User_email Hv)
    as (Hty & Hnn & Hun & _); [listed|listed|].
  specialize (Hnn (or_introl eq_refl)).
  specialize (Hun (or_introl eq_refl)).
  split; [exact Hun|]. intros r Hr. split.
  - exact (not_null_ok_elem _ _ _ Hnn Hr).
  - exact (type_ok_elem _ _ _ Hty Hr).
Qed.

Lemma duplicate_email_refused db e params r :
  valid metadata db ->
  r ∈ rows db "users" -> params !! "email" = Some (cell r "email") ->
  exists err, insert_into metadata e "users" params db = Err err.
Proof.
  intros Hv Hr Hp.
  destruct (insert_into metadata e "users" params db)
    as [db'|err] eqn:Hins; [exfalso|eauto].
  apply insert_into_Ok in Hins as (T & r' & HT & Ht & Hb & -> & Hv').
  pose proof (column_names_NoDup T HT) as Hnd.
  destruct (table_of_name T _ HT Ht) as (_ & HU & _).
  rewrite (HU eq_refl) in *.
  pose proof (build_row_cell _ _ _ r' User_email Hb Hnd ltac:(listed))
    as Hc.
  destruct (email_rows db Hv) as [_ Hold].
  destruct (Hold r Hr) as [Hne Hco].
  unfold insert_value in Hc.
  change (col_name User_email) with "email" in Hc.
  change (col_type User_email) with (String_ 255) in Hc.
  rewrite Hp, Hco in Hc. injection Hc as Hc.
  destruct (email_rows _ Hv') as [Hun _].
  rewrite rows_insert_eq in Hun.
  apply list_elem_of_lookup in Hr as [i Hi].
  assert (Hlt : i < length (rows db "users"))
    by (eapply lookup_lt_Some, Hi).
  assert (i = length (rows db "users")); [|lia].
  eapply (unique_ok_lookup User_email _ i (length (rows db "users")) r r').
  - exact Hun.
  - rewrite lookup_app_l; done.
  - rewrite lookup_app_r, Nat.sub_diag; done.
  - exact Hne.
  - exact Hc.
Qed.

(** C4: in every reachable state no two rows of [users] (the one table
    that holds the email of every user, base or military) share an email;
    a row carrying an email some row already has breaks the UNIQUE
    constraint of [users.email]; an INSERT into [users] that offers such
    an email is refused, and so is adding a [User] or a [MilitaryUser]
    instance with such an email through the unit of work. *)
Theorem email_unique (db : database) :
  reachable metadata db ->
  (forall i j r1 r2,
     rows db "users" !! i = Some r1 -> rows db "users" !! j = Some r2 ->
     i ≠ j -> cell r1 "email" ≠ cell r2 "email")
  /\ (forall r r',
        r ∈ rows db "users" -> cell r' "email" = cell r "email" ->
        unique_ok User_email (rows db "users" ++ [r'])%list = false)
  /\ (forall e params r,
        r ∈ rows db "users" -> params !! "email" = Some (cell r "email") ->
        exists err, insert_into metadata e "users" params db = Err err)
  /\ (forall e m kwargs r,
        m = User_mapper \/ m = MilitaryUser_mapper ->
        r ∈ rows db "users" -> kwargs !! "email" = Some (cell r "email") ->
        exists err, session_add e m kwargs db = Err err).
Proof.
  intros Hreach. apply reachable_valid in Hreach as Hv.
  split; [|split; [|split]].
  - intros i j r1 r2 Hi Hj Hij Heq. apply Hij.
    destruct (email_rows db Hv) as [Hun Hold].
    eapply (unique_ok_lookup User_email _ i j r1 r2); eauto.
    apply Hold. eapply list_elem_of_lookup_2, Hi.
  - intros r r' Hr Heq.
    destruct (unique_ok User_email (rows db "users" ++ [r'])%list) eqn:Hun;
      [exfalso|reflexivity].
    destruct (email_rows db Hv) as [_ Hold].
    destruct (Hold r Hr) as [Hne _].
    apply list_elem_of_lookup in Hr as [i Hi].
    assert (Hlt : i < length (rows db "users"))
      by (eapply lookup_lt_Some, Hi).
    assert (i = length (rows db "users")); [|lia].
    eapply (unique_ok_lookup User_email _ i (length (rows db "users")) r r').
    + exact Hun.
    + rewrite lookup_app_l; done.
    + rewrite lookup_app_r, Nat.sub_diag; done.
    + exact Hne.
    + symmetry. exact Heq.
  - intros e params r. apply duplicate_email_refused, Hv.
  - intros e m kwargs r Hm Hr Hk. unfold session_add, init_instance.
    destruct (elements (dom kwargs ∖ attribute_names m));
      [|destruct Hm as [-> | ->]; eauto].
    assert (Hin : "email" ∈ column_names User) by by_computation.
    destruct Hm as [-> | ->]; cbn [polymorphic_identity mapped_tables
      User_mapper MilitaryUser_mapper app mbind result_bind flush_insert].
    all: match goal with
         | |- context [insert_into metadata ?e0 (tablename User) ?p ?d] =>
             destruct (duplicate_email_refused d e0 p r Hv Hr) as [err Herr]
         end.
    all: try (apply map_lookup_filter_Some_2; [|exact Hin];
              apply lookup_union_Some_l; exact Hk).
    all: change (tablename User) with "users"; rewrite Herr; eauto.
Qed.

Lemma email_unique_witness :
  reachable metadata db_military
  /\ (forall i j r1 r2,
        rows db_military "users" !! i = Some r1 ->
        rows db_military "users" !! j = Some r2 ->
        i ≠ j -> cell r1 "email" ≠ cell r2 "email")
  /\ (forall r r',
        r ∈ rows db_military "users" -> cell r' "email" = cell r "email" ->
        unique_ok User_email (rows db_military "users" ++ [r'])%list = false)
  /\ (forall e params r,
        r ∈ rows db_military "users" ->
        params !! "email" = Some (cell r "email") ->
        exists err, insert_into metadata e "users" params db_military = Err err)
  /\ (forall e m kwargs r,
        m = User_mapper \/ m = MilitaryUser_mapper ->
        r ∈ rows db_military "users" ->
        kwargs !! "email" = Some (cell r "email") ->
        exists err, session_add e m kwargs db_military = Err err).
Proof.
  assert (Hreach : reachable metadata db_military).
  { apply (reachable_step metadata db_base env1 insert_extension);
      [|by_computation].
    apply (reachable_step metadata ∅ env1 insert_base);
      [apply reachable_empty | by_computation]. }
  split; [exact Hreach|]. exact (email_unique db_military Hreach).
Defined.

(** The refusal of a second [users] row with the same email is a
    uniqueness violation on [users.email]. *)
Example second_email_refused :
    insert_into metadata env2 "users"
      {[ "name" := VStr "Eve"; "email" := VStr "ada@example.org" ]}
      db_military
    = Err (UniqueViolation "users" "email").
  Proof. vm_compute. reflexivity. Qed.
End SchemaFacts.

(** ** The [users] / [military_users] pair *)

Section MilitaryFacts.
  Import Sql Models Orm Spec.

Local Ltac by_computation :=
  eapply bool_decide_eq_true_1; vm_compute; reflexivity.

Local Ltac listed := vm_compute; repeat constructor.

Local Ltac each_column HT Hc :=
  apply declared_tables in HT as [-> | [-> | ->]];
  apply list_elem_of_In in Hc; simpl in Hc;
  repeat (destruct Hc as [<-|Hc]); try destruct Hc.

(** Which declared columns reference which table. *)
Lemma references_users T c c' :
  T ∈ metadata -> c ∈ columns T ->
  col_foreign_key c = Some ("users", c') ->
  T = MilitaryUser /\ c = MilitaryUser_id /\ c' = "id".
Proof.
  intros HT Hc Hfk. each_column HT Hc; vm_compute in Hfk;
    try discriminate Hfk.
  injection Hfk as <-. done.
Qed.


(** Primary keys of [users]. *)
Lemma users_id_rows db :
  valid metadata db ->
  unique_ok id (rows db "users") = true
  /\ (forall r, r ∈ rows db "users" -> cell r "id" ≠ VNull).
Proof.
  intros Hv.
  destruct (valid_column metadata db User id Hv)
    as (_ & Hnn & Hun & _); [listed|listed|].
  specialize (Hnn (or_introl eq_refl)).
  specialize (Hun (or_intror eq_refl)).
  split; [exact Hun|]. intros r Hr.
  exact (not_null_ok_elem _ _ _ Hnn Hr).
Qed.

(** Every extension row has a key, and a base row with that key. *)
Lemma military_has_base db m :
  valid metadata db -> m ∈ rows db "military_users" ->
  cell m "id" ≠ VNull
  /\ exists u, u ∈ rows db "users" /\ cell u "id" = cell m "id".
Proof.
  intros Hv Hm.
  destruct (valid_column metadata db MilitaryUser MilitaryUser_id Hv)
    as (_ & Hnn & _ & Hfk); [listed|listed|].
  specialize (Hnn (or_intror eq_refl)).
  pose proof (not_null_ok_elem _ _ _ Hnn Hm) as Hne.
  split; [exact Hne|].
  destruct (fk_ok_elem db MilitaryUser_id _ "users" "id" m Hfk eq_refl Hm)
    as [Hnull|Hex]; [done|exact Hex].
Qed.






(** *** Deleting *)


Lemma delete_base db pk :
  valid metadata db ->
  (forall m, m ∈ rows db "military_users" -> ¬ matches "id" pk m) ->
  delete_from metadata "users" "id" pk db
  = Ok (<["users" :=
            filter (fun r => ¬ matches "id" pk r) (rows db "users")]> db)
  /\ valid metadata
       (<["users" :=
            filter (fun r => ¬ matches "id" pk r) (rows db "users")]> db).
Proof.
  intros Hv Hnone.
  assert (Hv1 : valid metadata
            (<["users" :=
                 filter (fun r => ¬ matches "id" pk r)
                        (rows db "users")]> db)).
  { apply valid_shrink; [exact Hv|apply sublist_filter|].
    intros T c c' HT Hc Hfk r Hr.
    destruct (references_users T c c' HT Hc Hfk) as (-> & -> & ->).
    rewrite rows_insert_ne in Hr by done.
    destruct (military_has_base db r Hv Hr) as (Hne & u & Hu & Hid).
    right. exists u. split; [|exact Hid].
    apply list_elem_of_filter. split; [|exact Hu].
    intros [Hpk Hm]. apply (Hnone r Hr). split; [exact Hpk|].
    change (col_name MilitaryUser_id) with "id" in *. congruence. }
  split; [|exact Hv1].
  apply (delete_from_spec metadata _ _ _ _ User);
    [reflexivity|vm_compute; reflexivity|exact Hv1].
Qed.



Lemma unmatched_key pk r :
  cell r "id" ≠ VNull -> ¬ matches "id" pk r -> cell r "id" ≠ pk.
Proof. intros Hne Hnm Heq. apply Hnm. split; congruence. Qed.




(** On the sample military user: the DELETE on [military_users] and then
    the DELETE on [users] empty both tables. *)
Example military_delete_example :
  (fun r => match r with
            | Ok db' => Some (rows db' "users", rows db' "military_users")
            | Err _ => None
            end)
    (db1 ← delete_from metadata "military_users" "id" (VUuid 1) db_military;
     delete_from metadata "users" "id" (VUuid 1) db1)
  = Some ([], []).
Proof. vm_compute. reflexivity. Qed.


(** The discriminator of the sample base row selects [MilitaryUser]. *)
Example military_load_example :
  (fun r => match r with
            | Ok m => Some (class_ m, tablename <$> mapped_tables m)
            | Err _ => None
            end) <$> (polymorphic_mapper <$> rows db_military "users")
  = [Some ("MilitaryUser", ["users"; "military_users"])].
Proof. vm_compute. reflexivity. Qed.
End MilitaryFacts.

(** ** The audit columns *)

Section AuditFacts.
  Import Sql Models Orm Spec.

Local Ltac by_computation :=
  eapply bool_decide_eq_true_1; vm_compute; reflexivity.

Local Ltac listed := vm_compute; repeat constructor.

Lemma timestamped_table T :
  T ∈ metadata -> timestamped (tablename T) ->
  id ∈ columns T /\ created_on ∈ columns T /\ updated_on ∈ columns T.
Proof.
  intros HT [Ht|Ht]; apply declared_tables in HT as [-> | [-> | ->]];
    try discriminate Ht; repeat split; listed.
Qed.

Lemma timestamped_declared t :
  timestamped t -> exists T, T ∈ metadata /\ tablename T = t.
Proof.
  intros [-> | ->]; eexists; split; try reflexivity.
  - apply UserTypeDefinition_declared.
  - apply User_declared.
Qed.

Lemma uuid_cell v : coerce UUID v = Some v -> v ≠ VNull ->
  exists i, v = VUuid i.
Proof. destruct v; try discriminate; [done|eauto]. Qed.

Lemma time_cell v : coerce DateTime v = Some v -> v ≠ VNull ->
  exists t, v = VTime t.
Proof. destruct v; try discriminate; [done|eauto]. Qed.

(** In a valid state the three inherited columns hold a key and two
    instants. *)
Lemma audit_cells db t r :
  valid metadata db -> timestamped t -> r ∈ rows db t ->
  exists i c u,
    cell r "id" = VUuid i /\ cell r "created_on" = VTime c
    /\ cell r "updated_on" = VTime u.
Proof.
  intros Hv Ht Hr.
  destruct (timestamped_declared t Ht) as (T & HT & <-).
  destruct (timestamped_table T HT Ht) as (Hid & Hc & Hu).
  destruct (valid_column metadata db T id Hv HT Hid) as (Hty1 & Hnn1 & _).
  destruct (valid_column metadata db T created_on Hv HT Hc)
    as (Hty2 & Hnn2 & _).
  destruct (valid_column metadata db T updated_on Hv HT Hu)
    as (Hty3 & Hnn3 & _).
  specialize (Hnn1 (or_introl eq_refl)).
  specialize (Hnn2 (or_introl eq_refl)).
  specialize (Hnn3 (or_introl eq_refl)).
  destruct (uuid_cell (cell r "id")) as [i Hi].
  { exact (type_ok_elem _ _ _ Hty1 Hr). }
  { exact (not_null_ok_elem _ _ _ Hnn1 Hr). }
  destruct (time_cell (cell r "created_on")) as [c Hco].
  { exact (type_ok_elem _ _ _ Hty2 Hr). }
  { exact (not_null_ok_elem _ _ _ Hnn2 Hr). }
  destruct (time_cell (cell r "updated_on")) as [u Huo].
  { exact (type_ok_elem _ _ _ Hty3 Hr). }
  { exact (not_null_ok_elem _ _ _ Hnn3 Hr). }
  eauto 10.
Qed.

(** The row an INSERT writes when it leaves the audit columns out. *)
Lemma insert_stamps e t params db db' :
  timestamped t ->
  params !! "created_on" = None -> params !! "updated_on" = None ->
  insert_into metadata e t params db = Ok db' ->
  exists r,
    db' = <[t := (rows db t ++ [r])%list]> db
    /\ cell r "created_on" = VTime (now e)
    /\ cell r "updated_on" = VTime (now e)
    /\ (params !! "id" = None -> cell r "id" = VUuid (uuid4 e)).
Proof.
  intros Ht Hpc Hpu Hins.
  apply insert_into_Ok in Hins as (T & r & HT & HTt & Hb & -> & _).
  subst t. pose proof (column_names_NoDup T HT) as Hnd.
  destruct (timestamped_table T HT Ht) as (Hid & Hc & Hu).
  pose proof (build_row_cell _ _ _ r id Hb Hnd Hid) as H1.
  pose proof (build_row_cell _ _ _ r created_on Hb Hnd Hc) as H2.
  pose proof (build_row_cell _ _ _ r updated_on Hb Hnd Hu) as H3.
  unfold insert_value in H1, H2, H3.
  change (col_name id) with "id" in *.
  change (col_name created_on) with "created_on" in *.
  change (col_name updated_on) with "updated_on" in *.
  rewrite Hpc in H2. rewrite Hpu in H3.
  exists r. split; [reflexivity|]. cbn in H2, H3.
  split; [congruence|]. split; [congruence|].
  intros Hpi. rewrite Hpi in H1. cbn in H1. congruence.
Qed.

(** The row an UPDATE writes when it leaves the audit columns out. *)
Lemma update_stamps e T params r r' c :
  T ∈ metadata -> timestamped (tablename T) ->
  params !! "created_on" = None -> params !! "updated_on" = None ->
  build_row (tablename T) (update_value e params r) (columns T) = Ok r' ->
  cell r "created_on" = VTime c ->
  cell r' "created_on" = VTime c /\ cell r' "updated_on" = VTime (now e).
Proof.
  intros HT Ht Hpc Hpu Hb Hc.
  pose proof (column_names_NoDup T HT) as Hnd.
  destruct (timestamped_table T HT Ht) as (_ & Hcr & Hup).
  pose proof (build_row_cell _ _ _ r' created_on Hb Hnd Hcr) as H2.
  pose proof (build_row_cell _ _ _ r' updated_on Hb Hnd Hup) as H3.
  unfold update_value in H2, H3.
  change (col_name created_on) with "created_on" in *.
  change (col_name updated_on) with "updated_on" in *.
  rewrite Hpc in H2. rewrite Hpu in H3. cbn in H2, H3.
  rewrite Hc in H2. cbn in H2. split; congruence.
Qed.

Lemma disciplined_reachable clock db :
  disciplined clock db -> reachable metadata db.
Proof.
  induction 1 as [|clock db e s db' _ IH _ _ Hex].
  - apply reachable_empty.
  - eapply reachable_step; eauto.
Qed.

(** Under the discipline, no row is modified before it is created, nor
    after the latest clock reading. *)
Lemma disciplined_ordered clock db :
  disciplined clock db ->
  forall t r c u,
    timestamped t -> r ∈ rows db t ->
    cell r "created_on" = VTime c -> cell r "updated_on" = VTime u ->
    (c <= u <= clock)%Z.
Proof.
  induction 1 as [clock|clock db e s db' Hd IH Hclk Hs Hex];
    intros t r c u Ht Hr Hc Hu.
  { rewrite rows_empty in Hr. by apply elem_of_nil in Hr. }
  assert (Hold : forall r0 c0 u0,
            r0 ∈ rows db t -> cell r0 "created_on" = VTime c0 ->
            cell r0 "updated_on" = VTime u0 -> (c0 <= u0 <= now e)%Z).
  { intros r0 c0 u0 Hr0 Hc0 Hu0.
    pose proof (IH t r0 c0 u0 Ht Hr0 Hc0 Hu0). lia. }
  destruct s as [t0 params|t0 wc wv params|t0 wc wv]; simpl in Hex, Hs.
  - destruct Hs as [Hpc Hpu].
    destruct (decide (t0 = t)) as [->|Hne].
    + destruct (insert_stamps e t params db db' Ht Hpc Hpu Hex)
        as (r0 & -> & Hc0 & Hu0 & _).
      rewrite rows_insert_eq in Hr.
      apply elem_of_app in Hr as [Hr|Hr]; [eauto|].
      apply list_elem_of_singleton in Hr as ->.
      assert (c = now e) by congruence. assert (u = now e) by congruence.
      lia.
    + apply insert_into_Ok in Hex as (_ & r0 & _ & _ & _ & -> & _).
      rewrite rows_insert_ne in Hr by done. eauto.
  - destruct Hs as [Hpc Hpu].
    apply update_where_Ok in Hex as (T & rs & HT & HTt & Hup & -> & _).
    destruct (decide (t0 = t)) as [->|Hne];
      [|rewrite rows_insert_ne in Hr by done; eauto].
    rewrite rows_insert_eq in Hr.
    destruct (update_rows_elem _ _ _ _ _ _ _ _ Hup Hr)
      as (r0 & Hr0 & [->|Hb]); [eauto|].
    apply disciplined_reachable, reachable_valid in Hd.
    destruct (audit_cells db t r0 Hd Ht Hr0) as (_ & c0 & u0 & _ & Hc0 & Hu0).
    rewrite <- HTt in Ht.
    destruct (update_stamps e T params r0 r c0 HT Ht Hpc Hpu Hb Hc0)
      as [Hc' Hu'].
    rewrite HTt in Ht.
    pose proof (Hold r0 c0 u0 Hr0 Hc0 Hu0).
    assert (c = c0) by congruence. assert (u = now e) by congruence.
    lia.
  - apply delete_from_Ok in Hex as [-> _].
    destruct (decide (t0 = t)) as [->|Hne];
      [|rewrite rows_insert_ne in Hr by done; eauto].
    rewrite rows_insert_eq in Hr.
    apply list_elem_of_filter in Hr as [_ Hr]. eauto.
Qed.

(** C5, as the code has it.  In every reachable state each row of a table
    with the audit columns holds a key and two instants, none of them
    NULL.  An INSERT that supplies neither audit column writes the current
    clock reading into both, and one that supplies no key writes the
    generated one.  In states reached by statements that never supply an
    audit column, against a clock that does not go back, no row has
    [updated_on] before [created_on]. *)
Theorem audit_columns (db : database) :
  reachable metadata db ->
  (forall t r, timestamped t -> r ∈ rows db t ->
     exists i c u,
       cell r "id" = VUuid i /\ cell r "created_on" = VTime c
       /\ cell r "updated_on" = VTime u)
  /\ (forall e t params db',
        timestamped t ->
        params !! "created_on" = None -> params !! "updated_on" = None ->
        insert_into metadata e t params db = Ok db' ->
        exists r,
          rows db' t = (rows db t ++ [r])%list
          /\ cell r "created_on" = VTime (now e)
          /\ cell r "updated_on" = VTime (now e)
          /\ (params !! "id" = None -> cell r "id" = VUuid (uuid4 e)))
  /\ (forall clock, disciplined clock db ->
        forall t r c u,
          timestamped t -> r ∈ rows db t ->
          cell r "created_on" = VTime c -> cell r "updated_on" = VTime u ->
          (c <= u <= clock)%Z).
Proof.
  intros Hreach. apply reachable_valid in Hreach as Hv.
  split; [|split].
  - intros t r. apply audit_cells, Hv.
  - intros e t params db' Ht Hpc Hpu Hins.
    destruct (insert_stamps e t params db db' Ht Hpc Hpu Hins)
      as (r & -> & Hrest).
    exists r. rewrite rows_insert_eq. split; [reflexivity|exact Hrest].
  - intros clock. apply disciplined_ordered.
Qed.

Lemma audit_columns_witness :
  reachable metadata db_base
  /\ (forall t r, timestamped t -> r ∈ rows db_base t ->
        exists i c u,
          cell r "id" = VUuid i /\ cell r "created_on" = VTime c
          /\ cell r "updated_on" = VTime u)
  /\ (forall e t params db',
        timestamped t ->
        params !! "created_on" = None -> params !! "updated_on" = None ->
        insert_into metadata e t params db_base = Ok db' ->
        exists r,
          rows db' t = (rows db_base t ++ [r])%list
          /\ cell r "created_on" = VTime (now e)
          /\ cell r "updated_on" = VTime (now e)
          /\ (params !! "id" = None -> cell r "id" = VUuid (uuid4 e)))
  /\ (forall clock, disciplined clock db_base ->
        forall t r c u,
          timestamped t -> r ∈ rows db_base t ->
          cell r "created_on" = VTime c -> cell r "updated_on" = VTime u ->
          (c <= u <= clock)%Z).
Proof.
  assert (Hreach : reachable metadata db_base).
  { apply (reachable_step metadata ∅ env1 insert_base);
      [apply reachable_empty | by_computation]. }
  split; [exact Hreach|]. exact (audit_columns db_base Hreach).
Defined.

(** The discipline is met by the sample states, e.g. a user created at
    100 and renamed at 200. *)
Example disciplined_example :
  disciplined 200
    (from_ok (execute metadata env2
                (Update "users" "id" (VUuid 1) {[ "name" := VStr "Eve" ]})
                db_base))
  /\ column_values "created_on"
       (rows (from_ok (execute metadata env2
                (Update "users" "id" (VUuid 1) {[ "name" := VStr "Eve" ]})
                db_base)) "users") = [VTime 100]
  /\ column_values "updated_on"
       (rows (from_ok (execute metadata env2
                (Update "users" "id" (VUuid 1) {[ "name" := VStr "Eve" ]})
                db_base)) "users") = [VTime 200].
Proof.
  split; [|split; vm_compute; reflexivity].
  apply (disciplined_step 100 db_base env2
           (Update "users" "id" (VUuid 1) {[ "name" := VStr "Eve" ]}));
    [|simpl; lia|split; reflexivity|by_computation].
  apply (disciplined_step 0 ∅ env1 insert_base);
    [apply disciplined_empty|simpl; lia|split; reflexivity|by_computation].
Qed.

(** C5, as stated, fails: the audit columns can be supplied by the caller,
    and a row whose [updated_on] precedes its [created_on] is accepted, at
    creation. *)
Lemma backdated_row_accepted :
  insert_into metadata env1 "users"
    {[ "name" := VStr "Ada"; "email" := VStr "ada@example.org";
       "created_on" := VTime 10; "updated_on" := VTime 5 ]} ∅
  = Ok db_backdated
  /\ reachable metadata db_backdated
  /\ column_values "created_on" (rows db_backdated "users") = [VTime 10]
  /\ column_values "updated_on" (rows db_backdated "users") = [VTime 5].
Proof.
  split; [by_computation|]. split; [|split; vm_compute; reflexivity].
  apply (reachable_step metadata ∅ env1 insert_backdated);
    [apply reachable_empty | by_computation].
Qed.
End AuditFacts.

(** ** Adding rows *)

#[local] Set Warnings "-clear-no-such-hyp".

Section GrowthFacts.
  Import Sql Spec Fit.

Lemma type_ok_snoc c rs r :
  type_ok c rs = true ->
  coerce (col_type c) (cell r (col_name c)) = Some (cell r (col_name c)) ->
  type_ok c (rs ++ [r]) = true.
Proof.
  unfold type_ok. intros H Hr. rewrite forallb_app, H. simpl.
  rewrite bool_decide_true by exact Hr. reflexivity.
Qed.

Lemma not_null_ok_snoc c rs r :
  not_null_ok c rs = true -> cell r (col_name c) ≠ VNull ->
  not_null_ok c (rs ++ [r]) = true.
Proof.
  unfold not_null_ok. intros H Hr. rewrite forallb_app, H. simpl.
  rewrite bool_decide_true by exact Hr. reflexivity.
Qed.

Lemma unique_ok_snoc c rs r :
  unique_ok c rs = true ->
  (cell r (col_name c) = VNull
   \/ forall r0, r0 ∈ rs -> cell r0 (col_name c) ≠ cell r (col_name c)) ->
  unique_ok c (rs ++ [r]) = true.
Proof.
  unfold unique_ok, column_values. intros H Hr.
  apply bool_decide_eq_true in H. apply bool_decide_eq_true.
  rewrite fmap_app, filter_app. simpl. rewrite filter_cons, filter_nil.
  destruct (decide (cell r (col_name c) ≠ VNull)) as [Hnn|Hn];
    [|rewrite app_nil_r; exact H].
  apply NoDup_app. split; [exact H|]. split; [|apply NoDup_singleton].
  intros v Hv Hv'. apply list_elem_of_singleton in Hv' as ->.
  apply list_elem_of_filter in Hv as [_ Hv].
  apply list_elem_of_fmap in Hv as (r0 & Heq & Hr0).
  destruct Hr as [Hnull|Hfresh]; [done|].
  apply (Hfresh r0 Hr0). congruence.
Qed.

(** A foreign key that holds keeps holding when referenced tables gain
    rows. *)
Lemma fk_ok_more_targets db db' c rs :
  (forall t r, r ∈ rows db t -> r ∈ rows db' t) ->
  fk_ok db c rs = true -> fk_ok db' c rs = true.
Proof.
  intros Hsub H. apply fk_ok_intro. intros t' c' Hfk r Hr.
  destruct (fk_ok_elem db c rs t' c' r H Hfk Hr) as [Hn|(r' & Hr' & Heq)];
    [left; exact Hn|]. right. exists r'. split; [apply Hsub, Hr'|exact Heq].
Qed.

Lemma rows_snoc_mono db t r t' r0 :
  r0 ∈ rows db t' -> r0 ∈ rows (<[t := (rows db t ++ [r])%list]> db) t'.
Proof.
  intros H. destruct (decide (t = t')) as [<-|Hne].
  - rewrite rows_insert_eq. apply elem_of_app. left. exact H.
  - rewrite rows_insert_ne by done. exact H.
Qed.

(** A row that fits every column of its table can be appended to a valid
    state. *)
Lemma valid_snoc md db t r :
  valid md db ->
  (forall T c, T ∈ md -> tablename T = t -> c ∈ columns T ->
               cell_fits db t r c) ->
  valid md (<[t := (rows db t ++ [r])%list]> db).
Proof.
  intros Hv Hfit. apply Forall_forall. intros T HT.
  apply Forall_forall. intros c Hc.
  destruct (valid_column md db T c Hv HT Hc) as (Hty & Hnn & Hun & Hfk).
  destruct (decide (tablename T = t)) as [Ht|Hne].
  - destruct (Hfit T c HT Ht Hc) as (Fty & Fnn & Fun & Ffk).
    rewrite Ht in *. unfold column_holds. rewrite rows_insert_eq.
    split; [apply type_ok_snoc; assumption|].
    split; [intros H; apply not_null_ok_snoc; auto|].
    split; [intros H; apply unique_ok_snoc; auto|].
    apply fk_ok_intro. intros t' c' Hcf r0 Hr0.
    apply elem_of_app in Hr0 as [Hr0|Hr0].
    + destruct (fk_ok_elem db c _ t' c' r0 Hfk Hcf Hr0)
        as [Hn|(r' & Hr' & Heq)]; [left; exact Hn|].
      right. exists r'. split; [apply rows_snoc_mono, Hr'|exact Heq].
    + apply list_elem_of_singleton in Hr0 as ->. exact (Ffk t' c' Hcf).
  - unfold column_holds. rewrite rows_insert_ne by done.
    split; [exact Hty|]. split; [exact Hnn|]. split; [exact Hun|].
    eapply fk_ok_more_targets; [|exact Hfk].
    intros t' r0. apply rows_snoc_mono.
Qed.

Lemma build_row_Ok t f cs :
  (forall c, c ∈ cs -> is_Some (coerce (col_type c) (f c))) ->
  exists r, build_row t f cs = Ok r.
Proof.
  induction cs as [|c cs IH]; intros H; simpl; [eauto|].
  destruct (H c) as [v Hv]; [left|]. rewrite Hv.
  destruct IH as [r Hr]; [intros c' Hc'; apply H; by right|].
  rewrite Hr. simpl. eauto.
Qed.

(** When an INSERT goes through. *)
Lemma insert_into_spec md e t params db T r :
  table_named md t = Ok T -> known_columns T (dom params) = Ok tt ->
  build_row t (insert_value e params) (columns T) = Ok r ->
  valid md (<[t := (rows db t ++ [r])%list]> db) ->
  insert_into md e t params db
  = Ok (<[t := (rows db t ++ [r])%list]> db).
Proof.
  intros HT Hk Hb Hv. unfold insert_into, commit. rewrite HT. simpl.
  rewrite Hk. simpl. rewrite Hb. simpl.
  apply check_spec in Hv. rewrite Hv. reflexivity.
Qed.
End GrowthFacts.

(** ** Reading and writing custom fields together *)

Section CustomFieldsMore.
  Import Py.

  Implicit Types (w : world) (k : string) (v : json).

Local Ltac py_eval :=
  cbv [set_custom_field get_custom_field mbind Py_bind
       getattr_custom_fields mret Py_ret dict_ dict_get deref raise
       new_dict dict_setitem setattr_custom_fields flag_modified];
  cbn [store self custom_fields modified].

(** What [get_custom_field] returns, by the shape of the state. *)
Lemma get_custom_field_eval w k dflt r d :
  custom_fields (self w) = Some r -> store w !! r = Some d ->
  get_custom_field k dflt w
  = Ok (match d !! k with Some v => v | None => dflt end, w).
Proof.
  destruct w as [st [i c0 u0 n e ro a ut ct cf m]].
  cbn [store self custom_fields]. intros -> Hd.
  py_eval. rewrite Hd. reflexivity.
Qed.

Lemma get_custom_field_none w k dflt :
  custom_fields (self w) = None -> get_custom_field k dflt w = Ok (dflt, w).
Proof.
  destruct w as [st [i c0 u0 n e ro a ut ct cf m]].
  cbn [store self custom_fields]. intros ->. reflexivity.
Qed.

(** The default-or-stored value read from a document. *)
Lemma get_custom_field_document w k dflt :
  wf w ->
  get_custom_field k dflt w
  = Ok (match base_document w !! k with Some v => v | None => dflt end, w).
Proof.
  intros Hwf. unfold base_document, document.
  destruct (custom_fields (self w)) as [r|] eqn:Hcf.
  - destruct (Hwf r Hcf) as [d Hd]. cbn. rewrite Hd.
    exact (get_custom_field_eval w k dflt r d Hcf Hd).
  - cbn. rewrite lookup_empty. exact (get_custom_field_none w k dflt Hcf).
Qed.

(** The state [set_custom_field] leaves, attribute by attribute. *)
Lemma set_custom_field_frame w k v :
  wf w ->
  exists r w',
    set_custom_field k v w = Ok (tt, w')
    /\ wf w'
    /\ custom_fields (self w') = Some r
    /\ store w' !! r = Some (<[k := v]> (base_document w))
    /\ id (self w') = id (self w)
    /\ created_on (self w') = created_on (self w)
    /\ updated_on (self w') = updated_on (self w)
    /\ name (self w') = name (self w)
    /\ email (self w') = email (self w)
    /\ role (self w') = role (self w)
    /\ is_active (self w') = is_active (self w)
    /\ user_type (self w') = user_type (self w)
    /\ custom_type_definition_id (self w')
       = custom_type_definition_id (self w).
Proof.
  intros Hwf. destruct w as [st [i c0 u0 n e ro a ut ct cf m]].
  unfold base_document, document, wf in *.
  cbn [store self custom_fields] in *.
  destruct cf as [r0|].
  - destruct (Hwf r0 eq_refl) as [d Hd]. cbn. rewrite Hd.
    eexists. eexists. split.
    { py_eval. rewrite Hd. cbn [store self]. rewrite lookup_insert_eq.
      reflexivity. }
    cbn. rewrite insert_insert_eq, lookup_insert_eq.
    repeat split; try reflexivity.
    intros r1 [= <-]. rewrite lookup_insert_eq. eauto.
  - cbn. eexists. eexists. split.
    { py_eval. rewrite lookup_insert_eq. cbn [store self].
      rewrite lookup_insert_eq. reflexivity. }
    cbn. rewrite insert_insert_eq, lookup_insert_eq.
    repeat split; try reflexivity.
    intros r1 [= <-]. rewrite lookup_insert_eq. eauto.
Qed.

Lemma set_custom_field_document w k v :
  wf w ->
  exists w',
    set_custom_field k v w = Ok (tt, w') /\ wf w'
    /\ document w' = Some (<[k := v]> (base_document w))
    /\ base_document w' = <[k := v]> (base_document w).
Proof.
  intros Hwf.
  destruct (set_custom_field_frame w k v Hwf)
    as (r & w' & Hrun & Hwf' & Hcf & Hst & _).
  exists w'. split; [exact Hrun|]. split; [exact Hwf'|].
  assert (Hd : document w' = Some (<[k := v]> (base_document w))).
  { unfold document. rewrite Hcf. exact Hst. }
  split; [exact Hd|]. unfold base_document at 1. rewrite Hd. reflexivity.
Qed.

(** X1: a field that has just been set is read back: after
    [set_custom_field k v], [get_custom_field k] returns [v], whatever the
    default and whatever the field held before. *)
Theorem get_after_set (w : world) (k : string) (v dflt : json) :
  wf w ->
  exists w',
    set_custom_field k v w = Ok (tt, w')
    /\ get_custom_field k dflt w' = Ok (v, w').
Proof.
  intros Hwf.
  destruct (set_custom_field_document w k v Hwf)
    as (w' & Hrun & Hwf' & _ & Hb).
  exists w'. split; [exact Hrun|].
  rewrite (get_custom_field_document w' k dflt Hwf'), Hb, lookup_insert_eq.
  reflexivity.
Qed.

Lemma get_after_set_witness :
  wf sample_world
  /\ exists w',
       set_custom_field "rank" (JStr "CPT") sample_world = Ok (tt, w')
       /\ get_custom_field "rank" JNull w' = Ok (JStr "CPT", w').
Proof.
  split.
  - intros r [= <-]. eexists. reflexivity.
  - apply (get_after_set sample_world "rank" (JStr "CPT") JNull).
    intros r [= <-]. eexists. reflexivity.
Defined.

(** X2: setting one field does not disturb the reading of another:
    for [k' ≠ k], [get_custom_field k'] returns after
    [set_custom_field k v] what it returned before. *)
Theorem get_other_after_set (w : world) (k k' : string) (v dflt : json) :
  wf w -> k' ≠ k ->
  exists w' x,
    set_custom_field k v w = Ok (tt, w')
    /\ get_custom_field k' dflt w = Ok (x, w)
    /\ get_custom_field k' dflt w' = Ok (x, w').
Proof.
  intros Hwf Hne.
  destruct (set_custom_field_document w k v Hwf)
    as (w' & Hrun & Hwf' & _ & Hb).
  exists w'. eexists. split; [exact Hrun|].
  split; [exact (get_custom_field_document w k' dflt Hwf)|].
  rewrite (get_custom_field_document w' k' dflt Hwf'), Hb.
  rewrite lookup_insert_ne by done. reflexivity.
Qed.

Lemma get_other_after_set_witness :
  wf sample_world /\ "ship_assignment" ≠ "rank"
  /\ exists w' x,
       set_custom_field "rank" (JStr "CPT") sample_world = Ok (tt, w')
       /\ get_custom_field "ship_assignment" JNull sample_world
          = Ok (x, sample_world)
       /\ get_custom_field "ship_assignment" JNull w' = Ok (x, w').
Proof.
  split; [intros r [= <-]; eexists; reflexivity|].
  split; [discriminate|].
  apply (get_other_after_set sample_world "rank" "ship_assignment"
           (JStr "CPT") JNull).
  - intros r [= <-]. eexists. reflexivity.
  - discriminate.
Defined.

(** X3: the last write to a field wins: setting [k] to [v1] and then to
    [v2] leaves the same document as setting it to [v2] alone. *)
Theorem set_custom_field_overwrites (w : world) (k : string) (v1 v2 : json) :
  wf w ->
  exists w1 w12 w2,
    set_custom_field k v1 w = Ok (tt, w1)
    /\ set_custom_field k v2 w1 = Ok (tt, w12)
    /\ set_custom_field k v2 w = Ok (tt, w2)
    /\ document w12 = document w2.
Proof.
  intros Hwf.
  destruct (set_custom_field_document w k v1 Hwf)
    as (w1 & Hrun1 & Hwf1 & _ & Hb1).
  destruct (set_custom_field_document w1 k v2 Hwf1)
    as (w12 & Hrun12 & _ & Hd12 & _).
  destruct (set_custom_field_document w k v2 Hwf)
    as (w2 & Hrun2 & _ & Hd2 & _).
  exists w1, w12, w2. repeat split; try assumption.
  rewrite Hd12, Hd2, Hb1, insert_insert_eq. reflexivity.
Qed.

Lemma set_custom_field_overwrites_witness :
  wf sample_world
  /\ exists w1 w12 w2,
       set_custom_field "rank" (JStr "LT") sample_world = Ok (tt, w1)
       /\ set_custom_field "rank" (JStr "CPT") w1 = Ok (tt, w12)
       /\ set_custom_field "rank" (JStr "CPT") sample_world = Ok (tt, w2)
       /\ document w12 = document w2.
Proof.
  split.
  - intros r [= <-]. eexists. reflexivity.
  - apply (set_custom_field_overwrites sample_world "rank"
             (JStr "LT") (JStr "CPT")).
    intros r [= <-]. eexists. reflexivity.
Defined.

(** X4: writes to different fields commute: setting [k1] then [k2]
    leaves the same document as setting [k2] then [k1]. *)
Theorem set_custom_field_commutes (w : world) (k1 k2 : string)
    (v1 v2 : json) :
  wf w -> k1 ≠ k2 ->
  exists a ab b ba,
    set_custom_field k1 v1 w = Ok (tt, a)
    /\ set_custom_field k2 v2 a = Ok (tt, ab)
    /\ set_custom_field k2 v2 w = Ok (tt, b)
    /\ set_custom_field k1 v1 b = Ok (tt, ba)
    /\ document ab = document ba.
Proof.
  intros Hwf Hne.
  destruct (set_custom_field_document w k1 v1 Hwf)
    as (a & Hra & Hwfa & _ & Hba).
  destruct (set_custom_field_document a k2 v2 Hwfa)
    as (ab & Hrab & _ & Hdab & _).
  destruct (set_custom_field_document w k2 v2 Hwf)
    as (b & Hrb & Hwfb & _ & Hbb).
  destruct (set_custom_field_document b k1 v1 Hwfb)
    as (ba & Hrba & _ & Hdba & _).
  exists a, ab, b, ba. repeat split; try assumption.
  rewrite Hdab, Hdba, Hba, Hbb. f_equal. apply insert_insert_ne.
  congruence.
Qed.

Lemma set_custom_field_commutes_witness :
  wf sample_world /\ "rank" ≠ "unit"
  /\ exists a ab b ba,
       set_custom_field "rank" (JStr "CPT") sample_world = Ok (tt, a)
       /\ set_custom_field "unit" (JStr "1st") a = Ok (tt, ab)
       /\ set_custom_field "unit" (JStr "1st") sample_world = Ok (tt, b)
       /\ set_custom_field "rank" (JStr "CPT") b = Ok (tt, ba)
       /\ document ab = document ba.
Proof.
  split; [intros r [= <-]; eexists; reflexivity|].
  split; [discriminate|].
  apply (set_custom_field_commutes sample_world "rank" "unit"
           (JStr "CPT") (JStr "1st")).
  - intros r [= <-]. eexists. reflexivity.
  - discriminate.
Defined.

(** X5: [set_custom_field] touches nothing but the custom fields: every
    column attribute of the instance other than [custom_fields] keeps its
    value, the state stays well formed, and the document loses no key: its
    keys afterwards are the keys before plus the one set. *)
Theorem set_custom_field_only_custom_fields (w : world) (k : string)
    (v : json) :
  wf w ->
  exists w' d',
    set_custom_field k v w = Ok (tt, w')
    /\ wf w'
    /\ document w' = Some d'
    /\ dom d' = {[ k ]} ∪ dom (base_document w)
    /\ id (self w') = id (self w)
    /\ created_on (self w') = created_on (self w)
    /\ updated_on (self w') = updated_on (self w)
    /\ name (self w') = name (self w)
    /\ email (self w') = email (self w)
    /\ role (self w') = role (self w)
    /\ is_active (self w') = is_active (self w)
    /\ user_type (self w') = user_type (self w)
    /\ custom_type_definition_id (self w')
       = custom_type_definition_id (self w).
Proof.
  intros Hwf.
  destruct (set_custom_field_frame w k v Hwf)
    as (r & w' & Hrun & Hwf' & Hcf & Hst & Hrest).
  exists w', (<[k := v]> (base_document w)).
  split; [exact Hrun|]. split; [exact Hwf'|].
  split; [unfold document; rewrite Hcf; exact Hst|].
  split; [apply dom_insert_L|exact Hrest].
Qed.

Lemma set_custom_field_only_custom_fields_witness :
  wf sample_world
  /\ exists w' d',
       set_custom_field "rank" (JStr "CPT") sample_world = Ok (tt, w')
       /\ wf w'
       /\ document w' = Some d'
       /\ dom d' = {[ "rank" ]} ∪ dom (base_document sample_world)
       /\ id (self w') = id (self sample_world)
       /\ created_on (self w') = created_on (self sample_world)
       /\ updated_on (self w') = updated_on (self sample_world)
       /\ name (self w') = name (self sample_world)
       /\ email (self w') = email (self sample_world)
       /\ role (self w') = role (self sample_world)
       /\ is_active (self w') = is_active (self sample_world)
       /\ user_type (self w') = user_type (self sample_world)
       /\ custom_type_definition_id (self w')
          = custom_type_definition_id (self sample_world).
Proof.
  split.
  - intros r [= <-]. eexists. reflexivity.
  - apply (set_custom_field_only_custom_fields sample_world "rank"
             (JStr "CPT")).
    intros r [= <-]. eexists. reflexivity.
Defined.
End CustomFieldsMore.

(** ** Instance properties and enumeration round trips *)

Section InstanceFacts.
  Import Enum Sql Models Orm Spec Instances.

Lemma string_length_append (s1 s2 : string) :
  String.length (s1 ++ s2) = String.length s1 + String.length s2.
Proof. induction s1 as [|a s1 IH]; simpl; [reflexivity|]. by rewrite IH. Qed.

Lemma string_append_assoc (s1 s2 s3 : string) :
  (s1 ++ s2) ++ s3 = s1 ++ (s2 ++ s3).
Proof.
  induction s1 as [|a s1 IH]; [reflexivity|].
  change (String a ((s1 ++ s2) ++ s3) = String a (s1 ++ (s2 ++ s3))).
  by rewrite IH.
Qed.

(** X6: [full_title] is the name when no rank is set and, when a rank
    is set, the rank, one space and the name; in both cases it ends with
    the name, and it is the bare name exactly when no rank is set (also
    when the rank is the empty string, the title is a space and the name,
    not the bare name). *)
Theorem full_title_ends_with_name (m : MilitaryUser) :
  (rank m = None -> full_title m = Py.name (base m))
  /\ (forall r, rank m = Some r ->
        full_title m = r ++ " " ++ Py.name (base m))
  /\ (exists prefix, full_title m = prefix ++ Py.name (base m))
  /\ (full_title m = Py.name (base m) <-> rank m = None)
  /\ (forall r, rank m = Some r ->
        String.length (full_title m)
        = String.length r + 1 + String.length (Py.name (base m))).
Proof.
  unfold full_title. destruct (rank m) as [r|].
  - split; [discriminate|].
    split; [intros r' [= <-]; reflexivity|].
    split; [exists (r ++ " "); by rewrite string_append_assoc|]. split.
    + split; [|discriminate]. intros H.
      apply (f_equal String.length) in H.
      rewrite !string_length_append in H. simpl in H. lia.
    + intros r' [= <-]. rewrite !string_length_append. simpl. lia.
  - split; [reflexivity|]. split; [discriminate|].
    split; [exists ""; reflexivity|]. split; [done|discriminate].
Qed.

(** X7: both enumeration columns read back what they wrote: the label
    bound for a member is read back as that member, and a label that reads
    back as a member is the label bound for it; and the labels a column
    accepts are exactly the ones that read back as some member. *)
Theorem enum_columns_round_trip :
  (forall r : UserRole,
     exists s, bind_processor role_type r = Some s
               /\ result_processor role_type s = Some r)
  /\ (forall b : MilitaryBranch,
        exists s, bind_processor branch_type b = Some s
                  /\ result_processor branch_type s = Some b)
  /\ (forall s r, result_processor role_type s = Some r ->
                  bind_processor role_type r = Some s)
  /\ (forall s b, result_processor branch_type s = Some b ->
                  bind_processor branch_type b = Some s)
  /\ (forall s, is_Some (coerce role_column_type (VStr s))
                <-> is_Some (result_processor role_type s))
  /\ (forall s, is_Some (coerce branch_column_type (VStr s))
                <-> is_Some (result_processor branch_type s)).
Proof.
  split; [intros []; eexists; split; reflexivity|].
  split; [intros []; eexists; split; reflexivity|].
  assert (Hrole : forall s r, result_processor role_type s = Some r ->
                              bind_processor role_type r = Some s).
  { intros s r. unfold result_processor. cbn.
    repeat (case_decide; [subst; intros [= <-]; reflexivity|]).
    discriminate. }
  assert (Hbranch : forall s b, result_processor branch_type s = Some b ->
                                bind_processor branch_type b = Some s).
  { intros s b. unfold result_processor. cbn.
    repeat (case_decide; [subst; intros [= <-]; reflexivity|]).
    discriminate. }
  split; [exact Hrole|]. split; [exact Hbranch|]. split.
  - intros s. unfold result_processor. cbn.
    case_bool_decide as Hin.
    + split; [intros _|eauto].
      set_unfold in Hin.
      repeat (case_decide; [eauto|]). naive_solver.
    + split; [intros [? [=]]|].
      set_unfold in Hin.
      repeat (case_decide; [naive_solver|]). intros [? [=]].
  - intros s. unfold result_processor. cbn.
    case_bool_decide as Hin.
    + split; [intros _|eauto].
      set_unfold in Hin.
      repeat (case_decide; [eauto|]). naive_solver.
    + split; [intros [? [=]]|].
      set_unfold in Hin.
      repeat (case_decide; [naive_solver|]). intros [? [=]].
Qed.
End InstanceFacts.

(** ** Further invariants of the declared schema *)

Section MoreInvariants.
  Import Enum Sql Models Orm Spec MoreColumns Samples.

Local Ltac by_computation :=
  eapply bool_decide_eq_true_1; vm_compute; reflexivity.

Local Ltac listed := vm_compute; repeat constructor.

Local Ltac each_column HT Hc :=
  apply declared_tables in HT as [-> | [-> | ->]];
  apply list_elem_of_In in Hc; simpl in Hc;
  repeat (destruct Hc as [<-|Hc]); try destruct Hc.

Lemma primary_key_rows db t :
  valid metadata db -> t ∈ table_names ->
  exists c, col_name c = "id"
            /\ unique_ok c (rows db t) = true
            /\ (forall r, r ∈ rows db t -> cell r "id" ≠ VNull).
Proof.
  intros Hv Ht. apply list_elem_of_In in Ht. simpl in Ht.
  destruct Ht as [<-|[<-|[<-|[]]]].
  - destruct (valid_column metadata db UserTypeDefinition id Hv)
      as (_ & Hnn & Hun & _); [listed|listed|].
    exists id. split; [reflexivity|].
    split; [exact (Hun (or_intror eq_refl))|]. intros r Hr.
    exact (not_null_ok_elem _ _ _ (Hnn (or_introl eq_refl)) Hr).
  - destruct (valid_column metadata db User id Hv)
      as (_ & Hnn & Hun & _); [listed|listed|].
    exists id. split; [reflexivity|].
    split; [exact (Hun (or_intror eq_refl))|]. intros r Hr.
    exact (not_null_ok_elem _ _ _ (Hnn (or_introl eq_refl)) Hr).
  - destruct (valid_column metadata db MilitaryUser MilitaryUser_id Hv)
      as (_ & Hnn & Hun & _); [listed|listed|].
    exists MilitaryUser_id. split; [reflexivity|].
    split; [exact (Hun (or_intror eq_refl))|]. intros r Hr.
    exact (not_null_ok_elem _ _ _ (Hnn (or_intror eq_refl)) Hr).
Qed.

(** X9: [id] is a key of every table: in every reachable state, within
    each of the three tables, every row has a non-NULL [id] and no two rows
    share one. *)
Theorem primary_keys_unique (db : database) :
  reachable metadata db ->
  forall t, t ∈ table_names ->
    (forall r, r ∈ rows db t -> cell r "id" ≠ VNull)
    /\ (forall i j r1 r2,
          rows db t !! i = Some r1 -> rows db t !! j = Some r2 ->
          i ≠ j -> cell r1 "id" ≠ cell r2 "id").
Proof.
  intros Hreach t Ht. apply reachable_valid in Hreach as Hv.
  destruct (primary_key_rows db t Hv Ht) as (c & Hc & Hun & Hnn).
  split; [exact Hnn|]. intros i j r1 r2 Hi Hj Hij Heq. apply Hij.
  eapply (unique_ok_lookup c _ i j r1 r2); eauto; rewrite Hc; [|exact Heq].
  apply Hnn. eapply list_elem_of_lookup_2, Hi.
Qed.

Lemma primary_keys_unique_witness :
  reachable metadata db_military
  /\ forall t, t ∈ table_names ->
       (forall r, r ∈ rows db_military t -> cell r "id" ≠ VNull)
       /\ (forall i j r1 r2,
             rows db_military t !! i = Some r1 ->
             rows db_military t !! j = Some r2 ->
             i ≠ j -> cell r1 "id" ≠ cell r2 "id").
Proof.
  assert (Hreach : reachable metadata db_military).
  { apply (reachable_step metadata db_base env1 insert_extension);
      [|by_computation].
    apply (reachable_step metadata ∅ env1 insert_base);
      [apply reachable_empty | by_computation]. }
  split; [exact Hreach|]. exact (primary_keys_unique db_military Hreach).
Defined.

(** Strings a VARCHAR(n) column keeps are at most [n] long. *)
Lemma substring_length (n : nat) (s : string) :
  n <= String.length s -> String.length (String.substring 0 n s) = n.
Proof.
  revert s. induction n as [|n IH]; intros s Hn.
  - destruct s; reflexivity.
  - destruct s as [|a s]; simpl in *; [lia|]. rewrite IH by lia. reflexivity.
Qed.

Lemma varchar_fits (n : nat) (v : value) :
  coerce (String_ n) v = Some v ->
  v = VNull \/ exists s, v = VStr s /\ String.length s <= n.
Proof.
  destruct v as [|s| | | |]; try discriminate; [by left|]. right.
  exists s. split; [reflexivity|]. simpl in H.
  case_bool_decide as Hle; [exact Hle|].
  destruct (all_spaces _); [|discriminate].
  injection H as H. apply (f_equal String.length) in H.
  rewrite substring_length in H by lia. lia.
Qed.

(** X13: no stored string is longer than its column declares: in every
    reachable state, for every declared column of type [String(n)], each
    row holds NULL or a string of at most [n] characters there. *)
Theorem strings_within_declared_length (db : database) :
  reachable metadata db ->
  forall T c n, T ∈ metadata -> c ∈ columns T -> col_type c = String_ n ->
    forall r, r ∈ rows db (tablename T) ->
      cell r (col_name c) = VNull
      \/ exists s, cell r (col_name c) = VStr s /\ String.length s <= n.
Proof.
  intros Hreach T c n HT Hc Hty r Hr. apply reachable_valid in Hreach as Hv.
  destruct (valid_column metadata db T c Hv HT Hc) as (Hok & _).
  pose proof (type_ok_elem _ _ _ Hok Hr) as Hco. rewrite Hty in Hco.
  exact (varchar_fits n _ Hco).
Qed.

Lemma strings_within_declared_length_witness :
  reachable metadata db_military
  /\ forall T c n, T ∈ metadata -> c ∈ columns T -> col_type c = String_ n ->
       forall r, r ∈ rows db_military (tablename T) ->
         cell r (col_name c) = VNull
         \/ exists s, cell r (col_name c) = VStr s /\ String.length s <= n.
Proof.
  assert (Hreach : reachable metadata db_military).
  { apply (reachable_step metadata db_base env1 insert_extension);
      [|by_computation].
    apply (reachable_step metadata ∅ env1 insert_base);
      [apply reachable_empty | by_computation]. }
  split; [exact Hreach|].
  exact (strings_within_declared_length db_military Hreach).
Defined.

Lemma enum_fits (labels : list string) (v : value) :
  coerce (Enum_ labels) v = Some v ->
  v = VNull \/ exists s, v = VStr s /\ s ∈ labels.
Proof.
  destruct v as [|s| | | |]; try discriminate; [by left|]. right.
  exists s. split; [reflexivity|]. simpl in H.
  case_bool_decide; [assumption|discriminate].
Qed.

(** X12: what the enumeration columns hold is always readable: in every
    reachable state the [role] of each [users] row is the value of a
    [UserRole] member and is read back as that member, and the [branch] of
    each [military_users] row is NULL or the name of a [MilitaryBranch]
    member and is read back as that member. *)
Theorem stored_enums_read_back (db : database) :
  reachable metadata db ->
  (forall u, u ∈ rows db "users" ->
     exists ro, cell u "role" = VStr (Enum.value ro)
                /\ Instances.load_role u = Some ro)
  /\ (forall m, m ∈ rows db "military_users" ->
        cell m "branch" = VNull
        \/ exists b, cell m "branch" = VStr (Enum.name b)
                     /\ Instances.load_branch m = Some b).
Proof.
  intros Hreach. apply reachable_valid in Hreach as Hv. split.
  - intros u Hu.
    destruct (valid_column metadata db User User_role Hv)
      as (Hty & Hnn & _); [listed|listed|].
    pose proof (not_null_ok_elem _ _ _ (Hnn (or_introl eq_refl)) Hu) as Hne.
    pose proof (type_ok_elem _ _ _ Hty Hu) as Hco.
    change (col_name User_role) with "role" in *.
    destruct (enum_fits _ _ Hco) as [Hn|(s & Hs & Hin)]; [done|].
    unfold Instances.load_role. rewrite Hs.
    apply list_elem_of_In in Hin. simpl in Hin.
    destruct Hin as [<-|[<-|[]]];
      [exists ADMIN|exists USER]; split; reflexivity.
  - intros m Hm.
    destruct (valid_column metadata db MilitaryUser MilitaryUser_branch Hv)
      as (Hty & _); [listed|listed|].
    pose proof (type_ok_elem _ _ _ Hty Hm) as Hco.
    change (col_name MilitaryUser_branch) with "branch" in *.
    destruct (enum_fits _ _ Hco) as [Hn|(s & Hs & Hin)]; [by left|right].
    unfold Instances.load_branch. rewrite Hs.
    apply list_elem_of_In in Hin. simpl in Hin.
    destruct Hin as [<-|[<-|[<-|[<-|[<-|[<-|[]]]]]]];
      [exists ARMY|exists NAVY|exists AIR_FORCE|exists MARINES
      |exists SPACE_FORCE|exists COAST_GUARD]; split; reflexivity.
Qed.

Lemma stored_enums_read_back_witness :
  reachable metadata db_military
  /\ (forall u, u ∈ rows db_military "users" ->
        exists ro, cell u "role" = VStr (Enum.value ro)
                   /\ Instances.load_role u = Some ro)
  /\ (forall m, m ∈ rows db_military "military_users" ->
        cell m "branch" = VNull
        \/ exists b, cell m "branch" = VStr (Enum.name b)
                     /\ Instances.load_branch m = Some b).
Proof.
  assert (Hreach : reachable metadata db_military).
  { apply (reachable_step metadata db_base env1 insert_extension);
      [|by_computation].
    apply (reachable_step metadata ∅ env1 insert_base);
      [apply reachable_empty | by_computation]. }
  split; [exact Hreach|]. exact (stored_enums_read_back db_military Hreach).
Defined.

Lemma uuid_coerced v v' : coerce UUID v = Some v' -> v' = v.
Proof. destruct v; simpl; congruence. Qed.

(** X14: an extension row cannot be written without its base row: in
    every reachable state an INSERT into [military_users] whose [id] is
    not the [id] of a row of [users] (or is missing) is refused. *)
Theorem extension_needs_base (db : database) :
  reachable metadata db ->
  forall e params,
    (forall u, u ∈ rows db "users" -> params !! "id" ≠ Some (cell u "id")) ->
    exists err, insert_into metadata e "military_users" params db = Err err.
Proof.
  intros Hreach e params Hfresh.
  destruct (insert_into metadata e "military_users" params db)
    as [db'|err] eqn:Hins; [exfalso|eauto].
  apply insert_into_Ok in Hins as (T & m & HT & Ht & Hb & -> & Hv').
  destruct (table_of_name T _ HT Ht) as (_ & _ & HM).
  rewrite (HM eq_refl) in *. clear HM HT Ht.
  pose proof (build_row_cell _ _ _ m MilitaryUser_id Hb
                (column_names_NoDup MilitaryUser MilitaryUser_declared)
                ltac:(listed)) as Hc.
  destruct (military_has_base _ m Hv') as (Hne & u & Hu & Hid).
  { rewrite rows_insert_eq. apply elem_of_app. right.
    by apply list_elem_of_singleton. }
  rewrite rows_insert_ne in Hu by done.
  unfold insert_value in Hc.
  change (col_name MilitaryUser_id) with "id" in Hc.
  change (col_type MilitaryUser_id) with UUID in Hc.
  destruct (params !! "id") as [v|] eqn:Hp.
  - apply uuid_coerced in Hc. apply (Hfresh u Hu). congruence.
  - cbn in Hc. congruence.
Qed.

Lemma extension_needs_base_witness :
  reachable metadata db_military
  /\ forall e params,
       (forall u, u ∈ rows db_military "users" ->
                  params !! "id" ≠ Some (cell u "id")) ->
       exists err,
         insert_into metadata e "military_users" params db_military = Err err.
Proof.
  assert (Hreach : reachable metadata db_military).
  { apply (reachable_step metadata db_base env1 insert_extension);
      [|by_computation].
    apply (reachable_step metadata ∅ env1 insert_base);
      [apply reachable_empty | by_computation]. }
  split; [exact Hreach|]. exact (extension_needs_base db_military Hreach).
Defined.

(** The user-type reference of a [users] row. *)
Lemma user_type_reference_rows db u :
  valid metadata db -> u ∈ rows db "users" ->
  cell u "custom_type_definition_id" = VNull
  \/ exists d, d ∈ rows db "user_type_definitions"
               /\ cell d "id" = cell u "custom_type_definition_id".
Proof.
  intros Hv Hu.
  destruct (valid_column metadata db User User_custom_type_definition_id Hv)
    as (_ & _ & _ & Hfk); [listed|listed|].
  exact (fk_ok_elem db User_custom_type_definition_id _
           "user_type_definitions" "id" u Hfk eq_refl Hu).
Qed.

(** X10: the user-type reference never dangles: in every reachable state
    the [custom_type_definition_id] of each [users] row is NULL or the
    [id] of exactly one row of [user_type_definitions]. *)
Theorem user_type_reference_holds (db : database) :
  reachable metadata db ->
  forall u, u ∈ rows db "users" ->
    cell u "custom_type_definition_id" = VNull
    \/ exists i d,
         rows db "user_type_definitions" !! i = Some d
         /\ cell d "id" = cell u "custom_type_definition_id"
         /\ forall j d', rows db "user_type_definitions" !! j = Some d' ->
               cell d' "id" = cell u "custom_type_definition_id" -> j = i.
Proof.
  intros Hreach u Hu. apply reachable_valid in Hreach as Hv.
  destruct (user_type_reference_rows db u Hv Hu) as [Hn|(d & Hd & Hid)];
    [by left|right].
  apply list_elem_of_lookup in Hd as [i Hi]. exists i, d.
  split; [exact Hi|]. split; [exact Hid|]. intros j d' Hj Hid'.
  destruct (primary_key_rows db "user_type_definitions" Hv ltac:(listed))
    as (c & Hc & Hun & Hnn).
  eapply (unique_ok_lookup c _ j i d' d); eauto; rewrite Hc; [|congruence].
  apply Hnn. eapply list_elem_of_lookup_2, Hj.
Qed.

Lemma user_type_reference_holds_witness :
  reachable metadata db_military
  /\ forall u, u ∈ rows db_military "users" ->
       cell u "custom_type_definition_id" = VNull
       \/ exists i d,
            rows db_military "user_type_definitions" !! i = Some d
            /\ cell d "id" = cell u "custom_type_definition_id"
            /\ forall j d',
                  rows db_military "user_type_definitions" !! j = Some d' ->
                  cell d' "id" = cell u "custom_type_definition_id" -> j = i.
Proof.
  assert (Hreach : reachable metadata db_military).
  { apply (reachable_step metadata db_base env1 insert_extension);
      [|by_computation].
    apply (reachable_step metadata ∅ env1 insert_base);
      [apply reachable_empty | by_computation]. }
  split; [exact Hreach|].
  exact (user_type_reference_holds db_military Hreach).
Defined.

Lemma db_typed_reachable : reachable metadata db_typed.
Proof.
  apply (reachable_step metadata db_type env2 insert_typed_user);
    [|by_computation].
  apply (reachable_step metadata ∅ env1 insert_type);
    [apply reachable_empty | by_computation].
Qed.

Lemma references_user_type_definitions T c c' :
  T ∈ metadata -> c ∈ columns T ->
  col_foreign_key c = Some ("user_type_definitions", c') ->
  T = User /\ c = User_custom_type_definition_id /\ c' = "id".
Proof.
  intros HT Hc Hfk. each_column HT Hc; vm_compute in Hfk;
    try discriminate Hfk.
  injection Hfk as <-. done.
Qed.

Lemma check_columns_stops db t cs1 c cs2 err :
  Forall (column_holds db t) cs1 -> check_column db t c = Err err ->
  check_columns db t (cs1 ++ c :: cs2) = Err err.
Proof.
  induction 1 as [|c1 cs1 Hc1 _ IH]; intros Hc; simpl.
  - rewrite Hc. reflexivity.
  - apply check_column_spec in Hc1. rewrite Hc1. simpl. exact (IH Hc).
Qed.

(** X11: a user type that is in use cannot be deleted: in every reachable
    state, a DELETE of the [user_type_definitions] row that some [users]
    row references is refused with a foreign-key violation on
    [users.custom_type_definition_id]. *)
Theorem referenced_user_type_kept (db : database) :
  reachable metadata db ->
  forall u, u ∈ rows db "users" ->
    cell u "custom_type_definition_id" ≠ VNull ->
    delete_from metadata "user_type_definitions" "id"
      (cell u "custom_type_definition_id") db
    = Err (ForeignKeyViolation "users" "custom_type_definition_id").
Proof.
  intros Hreach u Hu Hne. apply reachable_valid in Hreach as Hv.
  set (pk := cell u "custom_type_definition_id") in *.
  set (db' := <["user_type_definitions" :=
                  filter (fun r => ¬ matches "id" pk r)
                         (rows db "user_type_definitions")]> db).
  assert (Hshrink : forall T c,
            T ∈ metadata -> c ∈ columns T ->
            c ≠ User_custom_type_definition_id ->
            column_holds db' (tablename T) c).
  { intros T c HT Hc Hcne.
    apply (column_holds_shrink metadata); [exact Hv|apply sublist_filter|
      exact HT|exact Hc|].
    intros c' Hfk.
    destruct (references_user_type_definitions T c c' HT Hc Hfk)
      as (_ & -> & _). done. }
  assert (H1 : check_columns db' (tablename UserTypeDefinition)
                 (columns UserTypeDefinition) = Ok tt).
  { apply check_columns_spec, Forall_forall. intros c Hc.
    apply Hshrink; [apply UserTypeDefinition_declared|exact Hc|].
    intros ->. apply list_elem_of_In in Hc. simpl in Hc.
    repeat (destruct Hc as [Hc|Hc]; [discriminate Hc|]). destruct Hc. }
  assert (Hrows : rows db' "users" = rows db "users").
  { unfold db'. rewrite rows_insert_ne; done. }
  destruct (valid_column metadata db User User_custom_type_definition_id Hv)
    as (Hty & _); [apply User_declared|listed|].
  change (tablename User) with "users" in Hty.
  assert (Hfk : fk_ok db' User_custom_type_definition_id (rows db' "users")
                = false).
  { destruct (fk_ok db' User_custom_type_definition_id (rows db' "users"))
      eqn:Hf; [exfalso|reflexivity].
    rewrite Hrows in Hf.
    destruct (fk_ok_elem db' User_custom_type_definition_id _
                "user_type_definitions" "id" u Hf eq_refl Hu)
      as [Hnull|(d & Hd & Hid)]; [done|].
    unfold db' in Hd. rewrite rows_insert_eq in Hd.
    apply list_elem_of_filter in Hd as [Hnm _]. apply Hnm.
    split; [exact Hne|exact Hid]. }
  assert (H2 : check_columns db' (tablename User) (columns User)
               = Err (ForeignKeyViolation "users"
                        "custom_type_definition_id")).
  { change (columns User)
      with (take 8 (columns User) ++ User_custom_type_definition_id
            :: drop 9 (columns User))%list.
    apply check_columns_stops.
    - apply Forall_forall. intros c Hc.
      apply Hshrink; [apply User_declared| |].
      + apply list_elem_of_In in Hc. apply list_elem_of_In.
        simpl in Hc |- *. tauto.
      + intros ->. apply list_elem_of_In in Hc. simpl in Hc.
        repeat (destruct Hc as [Hc|Hc]; [discriminate Hc|]). destruct Hc.
    - unfold check_column. change (tablename User) with "users".
      rewrite Hfk, Hrows, Hty. reflexivity. }
  unfold delete_from.
  change (table_named metadata "user_type_definitions")
    with (Ok UserTypeDefinition : result error _).
  cbn [mbind result_bind].
  replace (known_columns UserTypeDefinition {["id"]})
    with (Ok tt : result error unit) by (vm_compute; reflexivity).
  cbn [mbind result_bind]. fold db'. unfold commit.
  change (check metadata db') with
    (check_columns db' (tablename UserTypeDefinition)
                   (columns UserTypeDefinition);;
     (check_columns db' (tablename User) (columns User);;
      (check_columns db' (tablename MilitaryUser) (columns MilitaryUser);;
       Ok tt))).
  rewrite H1. cbn [mbind result_bind]. rewrite H2. reflexivity.
Qed.

Lemma referenced_user_type_kept_witness :
  reachable metadata db_typed
  /\ forall u, u ∈ rows db_typed "users" ->
       cell u "custom_type_definition_id" ≠ VNull ->
       delete_from metadata "user_type_definitions" "id"
         (cell u "custom_type_definition_id") db_typed
       = Err (ForeignKeyViolation "users" "custom_type_definition_id").
Proof.
  assert (Hreach : reachable metadata db_typed).
  { apply (reachable_step metadata db_type env2 insert_typed_user);
      [|by_computation].
    apply (reachable_step metadata ∅ env1 insert_type);
      [apply reachable_empty | by_computation]. }
  split; [exact Hreach|]. exact (referenced_user_type_kept db_typed Hreach).
Defined.

(** The sample user does reference the sample type. *)
Example db_typed_reference :
  column_values "custom_type_definition_id" (rows db_typed "users")
  = [VUuid 1]
  /\ column_values "id" (rows db_typed "user_type_definitions") = [VUuid 1].
Proof. split; vm_compute; reflexivity. Qed.
End MoreInvariants.

(** ** Creating and updating rows *)

Section CreateFacts.
  Import Enum Sql Models Orm Spec MoreColumns Samples Fit.

Local Ltac by_computation :=
  eapply bool_decide_eq_true_1; vm_compute; reflexivity.

Local Ltac listed := vm_compute; repeat constructor.

(** X8: the column defaults of [users].  A user inserted without a role
    is stored with the role ["user"], which reads back as [UserRole.USER],
    so no instance carrying it is an admin; inserted without [is_active]
    it is active; inserted without [custom_fields] it has the empty
    document; and inserted without discriminator or type reference it has
    NULL there. *)
Theorem user_column_defaults (db db' : database) (e : env) (params : row) :
  insert_into metadata e "users" params db = Ok db' ->
  exists r,
    rows db' "users" = (rows db "users" ++ [r])%list
    /\ (params !! "role" = None ->
        cell r "role" = VStr "user"
        /\ Instances.load_role r = Some USER
        /\ forall u : Py.User,
             Instances.load_role r = Some (Py.role u) ->
             Instances.is_admin u = false)
    /\ (params !! "is_active" = None -> cell r "is_active" = VBool true)
    /\ (params !! "custom_fields" = None ->
        cell r "custom_fields" = VJson (JObj []))
    /\ (params !! "user_type" = None -> cell r "user_type" = VNull)
    /\ (params !! "custom_type_definition_id" = None ->
        cell r "custom_type_definition_id" = VNull).
Proof.
  intros Hins.
  apply insert_into_Ok in Hins as (T & r & HT & Ht & Hb & -> & _).
  destruct (table_of_name T _ HT Ht) as (_ & HU & _).
  rewrite (HU eq_refl) in *. clear HU HT Ht.
  pose proof (column_names_NoDup User User_declared) as Hnd.
  exists r. rewrite rows_insert_eq. split; [reflexivity|].
  assert (Hrole : params !! "role" = None -> cell r "role" = VStr "user").
  { intros Hp.
    pose proof (build_row_cell _ _ _ r User_role Hb Hnd ltac:(listed)) as H.
    unfold insert_value in H. change (col_name User_role) with "role" in H.
    rewrite Hp in H. cbn in H.
    change (coerce role_column_type role_default)
      with (Some (VStr "user")) in H.
    congruence. }
  split; [|split; [|split; [|split]]].
  - intros Hp. specialize (Hrole Hp). split; [exact Hrole|].
    assert (Hl : Instances.load_role r = Some USER).
    { unfold Instances.load_role. rewrite Hrole. reflexivity. }
    split; [exact Hl|]. intros u Hu. rewrite Hl in Hu.
    injection Hu as Hu. unfold Instances.is_admin. rewrite <- Hu.
    reflexivity.
  - intros Hp.
    pose proof (build_row_cell _ _ _ r User_is_active Hb Hnd ltac:(listed))
      as H.
    unfold insert_value in H.
    change (col_name User_is_active) with "is_active" in H.
    rewrite Hp in H. cbn in H. congruence.
  - intros Hp.
    pose proof (build_row_cell _ _ _ r User_custom_fields Hb Hnd
                  ltac:(listed)) as H.
    unfold insert_value in H.
    change (col_name User_custom_fields) with "custom_fields" in H.
    rewrite Hp in H. cbn in H. congruence.
  - intros Hp.
    pose proof (build_row_cell _ _ _ r User_user_type Hb Hnd ltac:(listed))
      as H.
    unfold insert_value in H.
    change (col_name User_user_type) with "user_type" in H.
    rewrite Hp in H. cbn in H. congruence.
  - intros Hp.
    pose proof (build_row_cell _ _ _ r User_custom_type_definition_id Hb
                  Hnd ltac:(listed)) as H.
    unfold insert_value in H.
    change (col_name User_custom_type_definition_id)
      with "custom_type_definition_id" in H.
    rewrite Hp in H. cbn in H. congruence.
Qed.

Lemma user_column_defaults_witness :
  insert_into metadata env1 "users"
    {[ "name" := VStr "Ada"; "email" := VStr "ada@example.org";
       "user_type" := VStr "military_user" ]} ∅ = Ok db_base
  /\ exists r,
       rows db_base "users" = (rows ∅ "users" ++ [r])%list
       /\ (({[ "name" := VStr "Ada"; "email" := VStr "ada@example.org";
               "user_type" := VStr "military_user" ]} : row) !! "role"
           = None ->
           cell r "role" = VStr "user"
           /\ Instances.load_role r = Some USER
           /\ forall u : Py.User,
                Instances.load_role r = Some (Py.role u) ->
                Instances.is_admin u = false)
       /\ (({[ "name" := VStr "Ada"; "email" := VStr "ada@example.org";
               "user_type" := VStr "military_user" ]} : row)
             !! "is_active" = None ->
           cell r "is_active" = VBool true)
       /\ (({[ "name" := VStr "Ada"; "email" := VStr "ada@example.org";
               "user_type" := VStr "military_user" ]} : row)
             !! "custom_fields" = None ->
           cell r "custom_fields" = VJson (JObj []))
       /\ (({[ "name" := VStr "Ada"; "email" := VStr "ada@example.org";
               "user_type" := VStr "military_user" ]} : row)
             !! "user_type" = None ->
           cell r "user_type" = VNull)
       /\ (({[ "name" := VStr "Ada"; "email" := VStr "ada@example.org";
               "user_type" := VStr "military_user" ]} : row)
             !! "custom_type_definition_id" = None ->
           cell r "custom_type_definition_id" = VNull).
Proof.
  assert (H : insert_into metadata env1 "users"
                {[ "name" := VStr "Ada"; "email" := VStr "ada@example.org";
                   "user_type" := VStr "military_user" ]} ∅ = Ok db_base)
    by by_computation.
  split; [exact H|]. exact (user_column_defaults ∅ db_base env1 _ H).
Defined.

(** Each row an UPDATE leaves at a position is the old row there,
    untouched if the WHERE clause does not select it and rebuilt if it
    does. *)
Lemma update_rows_lookup e T wc wv params rs rs' :
  update_rows e T wc wv params rs = Ok rs' ->
  length rs' = length rs
  /\ forall i r, rs !! i = Some r ->
       exists r', rs' !! i = Some r'
         /\ (¬ matches wc wv r -> r' = r)
         /\ (matches wc wv r ->
             build_row (tablename T) (update_value e params r) (columns T)
             = Ok r').
Proof.
  revert rs'. induction rs as [|r0 rs IH]; intros rs' Hup; simpl in Hup.
  - injection Hup as <-. split; [reflexivity|]. intros i r Hi. done.
  - apply bind_Ok in Hup as (r1 & Hr1 & Hup).
    apply bind_Ok in Hup as (rs1 & Hrs1 & [= <-]).
    destruct (IH rs1 Hrs1) as [Hlen Hpos].
    split; [simpl; by rewrite Hlen|].
    intros [|i] r Hi; simpl in Hi.
    + injection Hi as ->. exists r1. split; [reflexivity|].
      destruct (decide (matches wc wv r)) as [Hm|Hm].
      * split; [done|]. intros _. exact Hr1.
      * split; [|done]. intros _. congruence.
    + exact (Hpos i r Hi).
Qed.

(** X16: an UPDATE refreshes [updated_on] and nothing else of the audit
    data.  In a reachable state, an UPDATE of [users] or
    [user_type_definitions] that supplies neither audit column keeps the
    number and order of rows; a row the WHERE clause does not select is
    unchanged; a selected row gets the current clock reading as
    [updated_on], keeps its [created_on], and keeps its [id] unless the
    statement sets it. *)
Theorem update_refreshes_updated_on (db db' : database) (e : env)
    (t wc : string) (wv : value) (params : row) :
  reachable metadata db -> timestamped t ->
  params !! "created_on" = None -> params !! "updated_on" = None ->
  update_where metadata e t wc wv params db = Ok db' ->
  length (rows db' t) = length (rows db t)
  /\ forall i r, rows db t !! i = Some r ->
       exists r', rows db' t !! i = Some r'
         /\ (¬ matches wc wv r -> r' = r)
         /\ (matches wc wv r ->
             cell r' "updated_on" = VTime (now e)
             /\ cell r' "created_on" = cell r "created_on"
             /\ (params !! "id" = None -> cell r' "id" = cell r "id")).
Proof.
  intros Hreach Ht Hpc Hpu Hup. apply reachable_valid in Hreach as Hv.
  apply update_where_Ok in Hup as (T & rs & HT & HTt & Hrs & -> & _).
  rewrite rows_insert_eq.
  destruct (update_rows_lookup _ _ _ _ _ _ _ Hrs) as [Hlen Hpos].
  split; [exact Hlen|]. intros i r Hi.
  destruct (Hpos i r Hi) as (r' & Hi' & Hsame & Hbuilt).
  exists r'. split; [exact Hi'|]. split; [exact Hsame|].
  intros Hm. specialize (Hbuilt Hm).
  assert (Hr : r ∈ rows db t) by (eapply list_elem_of_lookup_2, Hi).
  destruct (audit_cells db t r Hv Ht Hr) as (k & c & u & Hk & Hc & Hu).
  rewrite <- HTt in Ht.
  destruct (update_stamps e T params r r' c HT Ht Hpc Hpu Hbuilt Hc)
    as [Hc' Hu'].
  split; [exact Hu'|]. split; [congruence|]. intros Hpi.
  destruct (timestamped_table T HT Ht) as (Hid & _).
  pose proof (build_row_cell _ _ _ r' id Hbuilt
                (column_names_NoDup T HT) Hid) as H.
  unfold update_value in H. change (col_name id) with "id" in H.
  rewrite Hpi, Hk in H. cbn in H. congruence.
Qed.

Lemma update_refreshes_updated_on_witness :
  reachable metadata db_base /\ timestamped "users"
  /\ ({[ "name" := VStr "Eve" ]} : row) !! "created_on" = None
  /\ ({[ "name" := VStr "Eve" ]} : row) !! "updated_on" = None
  /\ update_where metadata env2 "users" "id" (VUuid 1)
       {[ "name" := VStr "Eve" ]} db_base
     = Ok (from_ok (update_where metadata env2 "users" "id" (VUuid 1)
                      {[ "name" := VStr "Eve" ]} db_base))
  /\ length (rows (from_ok (update_where metadata env2 "users" "id"
                              (VUuid 1) {[ "name" := VStr "Eve" ]} db_base))
                  "users")
     = length (rows db_base "users")
  /\ forall i r, rows db_base "users" !! i = Some r ->
       exists r',
         rows (from_ok (update_where metadata env2 "users" "id" (VUuid 1)
                          {[ "name" := VStr "Eve" ]} db_base)) "users" !! i
         = Some r'
         /\ (¬ matches "id" (VUuid 1) r -> r' = r)
         /\ (matches "id" (VUuid 1) r ->
             cell r' "updated_on" = VTime (now env2)
             /\ cell r' "created_on" = cell r "created_on"
             /\ (({[ "name" := VStr "Eve" ]} : row) !! "id" = None ->
                 cell r' "id" = cell r "id")).
Proof.
  assert (Hreach : reachable metadata db_base).
  { apply (reachable_step metadata ∅ env1 insert_base);
      [apply reachable_empty | by_computation]. }
  assert (Ht : timestamped "users") by (right; reflexivity).
  assert (Hup : update_where metadata env2 "users" "id" (VUuid 1)
                  {[ "name" := VStr "Eve" ]} db_base
                = Ok (from_ok (update_where metadata env2 "users" "id"
                                 (VUuid 1) {[ "name" := VStr "Eve" ]}
                                 db_base))) by by_computation.
  split; [exact Hreach|]. split; [exact Ht|].
  split; [reflexivity|]. split; [reflexivity|]. split; [exact Hup|].
  exact (update_refreshes_updated_on db_base _ env2 "users" "id" (VUuid 1)
           {[ "name" := VStr "Eve" ]} Hreach Ht eq_refl eq_refl Hup).
Defined.

(** X17: a [users] row without an extension row can be deleted: in a
    reachable state, when no [military_users] row carries the key, the
    DELETE on [users] for that key goes through, removes exactly the
    [users] rows with that key and leaves the other tables as they
    were. *)
Theorem plain_user_delete (db : database) (k : N) :
  reachable metadata db ->
  (forall m, m ∈ rows db "military_users" -> cell m "id" ≠ VUuid k) ->
  exists db',
    delete_from metadata "users" "id" (VUuid k) db = Ok db'
    /\ reachable metadata db'
    /\ rows db' "users"
       = filter (fun r => ¬ matches "id" (VUuid k) r) (rows db "users")
    /\ rows db' "military_users" = rows db "military_users"
    /\ rows db' "user_type_definitions" = rows db "user_type_definitions"
    /\ (forall r, r ∈ rows db' "users" -> cell r "id" ≠ VUuid k)
    /\ (forall r, r ∈ rows db "users" -> cell r "id" ≠ VUuid k ->
          r ∈ rows db' "users").
Proof.
  intros Hreach Hnone. apply reachable_valid in Hreach as Hv.
  destruct (delete_base db (VUuid k) Hv) as [Hd Hv'].
  { intros m Hm [_ Heq]. exact (Hnone m Hm Heq). }
  eexists. split; [exact Hd|]. split.
  { apply (reachable_step metadata db env1 (Delete "users" "id" (VUuid k)));
      [exact Hreach|exact Hd]. }
  rewrite rows_insert_eq, !rows_insert_ne by done.
  split; [reflexivity|]. split; [reflexivity|]. split; [reflexivity|].
  split.
  - intros r [Hnm Hr]%list_elem_of_filter.
    apply unmatched_key; [|exact Hnm].
    apply (users_id_rows db Hv), Hr.
  - intros r Hr Hne. apply list_elem_of_filter. split; [|exact Hr].
    intros [_ Heq]. done.
Qed.

Lemma plain_user_delete_witness :
  reachable metadata db_typed
  /\ (forall m, m ∈ rows db_typed "military_users" ->
        cell m "id" ≠ VUuid 2)
  /\ exists db',
       delete_from metadata "users" "id" (VUuid 2) db_typed = Ok db'
       /\ reachable metadata db'
       /\ rows db' "users"
          = filter (fun r => ¬ matches "id" (VUuid 2) r)
                   (rows db_typed "users")
       /\ rows db' "military_users" = rows db_typed "military_users"
       /\ rows db' "user_type_definitions"
          = rows db_typed "user_type_definitions"
       /\ (forall r, r ∈ rows db' "users" -> cell r "id" ≠ VUuid 2)
       /\ (forall r, r ∈ rows db_typed "users" -> cell r "id" ≠ VUuid 2 ->
             r ∈ rows db' "users").
Proof.
  assert (Hreach : reachable metadata db_typed).
  { apply (reachable_step metadata db_type env2 insert_typed_user);
      [|by_computation].
    apply (reachable_step metadata ∅ env1 insert_type);
      [apply reachable_empty | by_computation]. }
  assert (Hnone : forall m, m ∈ rows db_typed "military_users" ->
                    cell m "id" ≠ VUuid 2).
  { assert (Hrows : rows db_typed "military_users" = [])
      by (vm_compute; reflexivity).
    intros m Hm. rewrite Hrows in Hm. apply elem_of_nil in Hm; destruct Hm. }
  split; [exact Hreach|]. split; [exact Hnone|].
  exact (plain_user_delete db_typed 2 Hreach Hnone).
Defined.

(** Deleting the sample typed [users] row empties [users] and keeps its
    type. *)
Example plain_user_delete_example :
  (fun r => match r with
            | Ok db' => Some (rows db' "users",
                              column_values "id"
                                (rows db' "user_type_definitions"))
            | Err _ => None
            end)
    (delete_from metadata "users" "id" (VUuid 2) db_typed)
  = Some ([], [VUuid 1]).
Proof. vm_compute. reflexivity. Qed.
End CreateFacts.

(** ** Inserting a [users] row from a name and an email *)

Section CreateUser.
  Import Enum Sql Models Orm Spec MoreColumns Samples Fit.

Local Ltac by_computation :=
  eapply bool_decide_eq_true_1; vm_compute; reflexivity.

Local Ltac listed := vm_compute; repeat constructor.

(** The row such an INSERT builds. *)
Lemma new_user_cells e (n m : string) r :
  String.length n <= 255 -> String.length m <= 255 ->
  build_row "users"
    (insert_value e {[ "name" := VStr n; "email" := VStr m ]})
    (columns User) = Ok r ->
  cell r "id" = VUuid (uuid4 e)
  /\ cell r "created_on" = VTime (now e)
  /\ cell r "updated_on" = VTime (now e)
  /\ cell r "name" = VStr n
  /\ cell r "email" = VStr m
  /\ cell r "role" = VStr "user"
  /\ cell r "is_active" = VBool true
  /\ cell r "user_type" = VNull
  /\ cell r "custom_type_definition_id" = VNull
  /\ cell r "custom_fields" = VJson (JObj []).
Proof.
  intros Hn Hm Hb.
  pose proof (column_names_NoDup User User_declared) as Hnd.
  pose proof (fun c Hc => build_row_cell _ _ _ r c Hb Hnd Hc) as Hcell.
  pose proof (Hcell id ltac:(listed)) as H1.
  pose proof (Hcell created_on ltac:(listed)) as H2.
  pose proof (Hcell updated_on ltac:(listed)) as H3.
  pose proof (Hcell User_name ltac:(listed)) as H4.
  pose proof (Hcell User_email ltac:(listed)) as H5.
  pose proof (Hcell User_role ltac:(listed)) as H6.
  pose proof (Hcell User_is_active ltac:(listed)) as H7.
  pose proof (Hcell User_user_type ltac:(listed)) as H8.
  pose proof (Hcell User_custom_type_definition_id ltac:(listed)) as H9.
  pose proof (Hcell User_custom_fields ltac:(listed)) as H10.
  clear Hcell. unfold insert_value in *.
  change (col_name id) with "id" in H1.
  change (col_name created_on) with "created_on" in H2.
  change (col_name updated_on) with "updated_on" in H3.
  change (col_name User_name) with "name" in H4.
  change (col_name User_email) with "email" in H5.
  change (col_name User_role) with "role" in H6.
  change (col_name User_is_active) with "is_active" in H7.
  change (col_name User_user_type) with "user_type" in H8.
  change (col_name User_custom_type_definition_id)
    with "custom_type_definition_id" in H9.
  change (col_name User_custom_fields) with "custom_fields" in H10.
  rewrite lookup_insert_ne, lookup_singleton_ne in
    H1, H2, H3, H6, H7, H8, H9, H10 by done.
  rewrite lookup_insert_eq in H4.
  rewrite lookup_insert_ne, lookup_singleton_eq in H5 by done.
  cbn in H1, H2, H3, H7, H8, H9, H10.
  change (coerce (col_type User_role) _) with (Some (VStr "user")) in H6.
  change (col_type User_name) with (String_ 255) in H4.
  change (col_type User_email) with (String_ 255) in H5.
  cbn [coerce] in H4, H5.
  rewrite bool_decide_true in H4 by exact Hn.
  rewrite bool_decide_true in H5 by exact Hm.
  repeat split; congruence.
Qed.

Lemma users_columns c :
  c ∈ columns User ->
  c = id \/ c = created_on \/ c = updated_on \/ c = User_name
  \/ c = User_email \/ c = User_role \/ c = User_is_active
  \/ c = User_user_type \/ c = User_custom_type_definition_id
  \/ c = User_custom_fields.
Proof.
  intros Hc. apply list_elem_of_In in Hc. simpl in Hc.
  repeat (destruct Hc as [<-|Hc]; [tauto|]). destruct Hc.
Qed.

Lemma new_user_row_builds e (n m : string) :
  String.length n <= 255 -> String.length m <= 255 ->
  exists r,
    build_row "users"
      (insert_value e {[ "name" := VStr n; "email" := VStr m ]})
      (columns User) = Ok r.
Proof.
  intros Hn Hm. apply build_row_Ok. intros c Hc.
  apply users_columns in Hc.
  destruct Hc as [->|[->|[->|[->|[->|[->|[->|[->|[->| ->]]]]]]]]];
    unfold insert_value.
  - vm_compute. eauto.
  - vm_compute. eauto.
  - vm_compute. eauto.
  - change (col_name User_name) with "name".
    change (col_type User_name) with (String_ 255).
    rewrite lookup_insert_eq. cbn [coerce].
    rewrite bool_decide_true by exact Hn. eauto.
  - change (col_name User_email) with "email".
    change (col_type User_email) with (String_ 255).
    rewrite lookup_insert_ne, lookup_singleton_eq by done. cbn [coerce].
    rewrite bool_decide_true by exact Hm. eauto.
  - vm_compute. eauto.
  - vm_compute. eauto.
  - vm_compute. eauto.
  - vm_compute. eauto.
  - vm_compute. eauto.
Qed.

Local Ltac no_flag :=
  let F := fresh in intros [F|F]; vm_compute in F; discriminate F.

Local Ltac no_fk :=
  let F := fresh in intros ? ? F; vm_compute in F; discriminate F.

(** X15: the INSERT of a [users] row from a name and an email goes
    through.  In a reachable state, when name and email are at most 255
    characters long and hold no NUL character, no [users] row has that
    email and the generated identifier is a 128-bit one that is not
    taken, the INSERT into [users] that supplies the name and the email
    only succeeds and appends exactly one row: it carries the generated
    [id], the clock reading as both audit instants, the given name and
    email, role ["user"], [is_active] true, no discriminator, no type
    reference and an empty custom-field document; the other tables are
    as they were and the new state is reachable. *)
Theorem user_insert_succeeds (db : database) (e : env) (n m : string) :
  reachable metadata db ->
  String.length n <= 255 -> String.length m <= 255 ->
  nul_free n = true -> nul_free m = true ->
  (uuid4 e < 2 ^ 128)%N ->
  (forall r, r ∈ rows db "users" -> cell r "email" ≠ VStr m) ->
  (forall r, r ∈ rows db "users" -> cell r "id" ≠ VUuid (uuid4 e)) ->
  exists db' r,
    insert_into metadata e "users"
      {[ "name" := VStr n; "email" := VStr m ]} db
    = Ok db'
    /\ reachable metadata db'
    /\ rows db' "users" = (rows db "users" ++ [r])%list
    /\ rows db' "user_type_definitions" = rows db "user_type_definitions"
    /\ rows db' "military_users" = rows db "military_users"
    /\ cell r "id" = VUuid (uuid4 e)
    /\ cell r "created_on" = VTime (now e)
    /\ cell r "updated_on" = VTime (now e)
    /\ cell r "name" = VStr n
    /\ cell r "email" = VStr m
    /\ cell r "role" = VStr "user"
    /\ cell r "is_active" = VBool true
    /\ cell r "user_type" = VNull
    /\ cell r "custom_type_definition_id" = VNull
    /\ cell r "custom_fields" = VJson (JObj []).
Proof.
  intros Hreach Hn Hm _ _ _ Hemail Hid. apply reachable_valid in Hreach as Hv.
  destruct (new_user_row_builds e n m Hn Hm) as [r Hb].
  destruct (new_user_cells e n m r Hn Hm Hb)
    as (C1 & C2 & C3 & C4 & C5 & C6 & C7 & C8 & C9 & C10).
  set (params := ({[ "name" := VStr n; "email" := VStr m ]} : row)) in *.
  set (db' := <["users" := (rows db "users" ++ [r])%list]> db).
  assert (Hv' : valid metadata db').
  { apply valid_snoc; [exact Hv|]. intros T c HT Ht Hc.
    destruct (table_of_name T _ HT Ht) as (_ & HU & _).
    rewrite (HU eq_refl) in Hc. clear HU.
    apply users_columns in Hc. unfold cell_fits.
    destruct Hc as [->|[->|[->|[->|[->|[->|[->|[->|[->| ->]]]]]]]]].
    - change (col_name id) with "id". rewrite C1.
      split; [reflexivity|]. split; [discriminate|].
      split; [intros _; right; exact Hid|no_fk].
    - change (col_name created_on) with "created_on". rewrite C2.
      split; [reflexivity|]. split; [discriminate|].
      split; [no_flag|no_fk].
    - change (col_name updated_on) with "updated_on". rewrite C3.
      split; [reflexivity|]. split; [discriminate|].
      split; [no_flag|no_fk].
    - change (col_name User_name) with "name". rewrite C4.
      split; [cbn; rewrite bool_decide_true by exact Hn; reflexivity|].
      split; [discriminate|]. split; [no_flag|no_fk].
    - change (col_name User_email) with "email". rewrite C5.
      split; [cbn; rewrite bool_decide_true by exact Hm; reflexivity|].
      split; [discriminate|].
      split; [intros _; right; exact Hemail|no_fk].
    - change (col_name User_role) with "role". rewrite C6.
      split; [reflexivity|]. split; [discriminate|].
      split; [no_flag|no_fk].
    - change (col_name User_is_active) with "is_active". rewrite C7.
      split; [reflexivity|]. split; [discriminate|].
      split; [no_flag|no_fk].
    - change (col_name User_user_type) with "user_type". rewrite C8.
      split; [reflexivity|]. split; [no_flag|].
      split; [no_flag|no_fk].
    - change (col_name User_custom_type_definition_id)
        with "custom_type_definition_id". rewrite C9.
      split; [reflexivity|]. split; [no_flag|].
      split; [no_flag|]. intros ? ? _. by left.
    - change (col_name User_custom_fields) with "custom_fields". rewrite C10.
      split; [reflexivity|]. split; [no_flag|].
      split; [no_flag|no_fk]. }
  assert (Hins : insert_into metadata e "users" params db = Ok db').
  { apply (insert_into_spec metadata e "users" params db User r);
      [reflexivity| |exact Hb|exact Hv'].
    unfold params. rewrite dom_insert_L, dom_singleton_L.
    vm_compute. reflexivity. }
  exists db', r. split; [exact Hins|]. split.
  { apply (reachable_step metadata db e (Insert "users" params));
      [exact Hreach|exact Hins]. }
  unfold db'. rewrite rows_insert_eq, !rows_insert_ne by done.
  repeat split; first [reflexivity|assumption].
Qed.

Lemma user_insert_succeeds_witness :
  reachable metadata db_type
  /\ String.length "Eve" <= 255 /\ String.length "eve@example.org" <= 255
  /\ nul_free "Eve" = true /\ nul_free "eve@example.org" = true
  /\ (uuid4 env2 < 2 ^ 128)%N
  /\ (forall r, r ∈ rows db_type "users" ->
        cell r "email" ≠ VStr "eve@example.org")
  /\ (forall r, r ∈ rows db_type "users" ->
        cell r "id" ≠ VUuid (uuid4 env2))
  /\ exists db' r,
       insert_into metadata env2 "users"
         {[ "name" := VStr "Eve"; "email" := VStr "eve@example.org" ]}
         db_type = Ok db'
       /\ reachable metadata db'
       /\ rows db' "users" = (rows db_type "users" ++ [r])%list
       /\ rows db' "user_type_definitions"
          = rows db_type "user_type_definitions"
       /\ rows db' "military_users" = rows db_type "military_users"
       /\ cell r "id" = VUuid (uuid4 env2)
       /\ cell r "created_on" = VTime (now env2)
       /\ cell r "updated_on" = VTime (now env2)
       /\ cell r "name" = VStr "Eve"
       /\ cell r "email" = VStr "eve@example.org"
       /\ cell r "role" = VStr "user"
       /\ cell r "is_active" = VBool true
       /\ cell r "user_type" = VNull
       /\ cell r "custom_type_definition_id" = VNull
       /\ cell r "custom_fields" = VJson (JObj []).
Proof.
  assert (Hreach : reachable metadata db_type).
  { apply (reachable_step metadata ∅ env1 insert_type);
      [apply reachable_empty | by_computation]. }
  assert (Hrows : rows db_type "users" = []) by (vm_compute; reflexivity).
  assert (H1 : forall r, r ∈ rows db_type "users" ->
                 cell r "email" ≠ VStr "eve@example.org").
  { intros r Hr. rewrite Hrows in Hr. apply elem_of_nil in Hr; destruct Hr. }
  assert (H2 : forall r, r ∈ rows db_type "users" ->
                 cell r "id" ≠ VUuid (uuid4 env2)).
  { intros r Hr. rewrite Hrows in Hr. apply elem_of_nil in Hr; destruct Hr. }
  assert (H3 : (uuid4 env2 < 2 ^ 128)%N) by (vm_compute; reflexivity).
  split; [exact Hreach|]. split; [simpl; lia|]. split; [simpl; lia|].
  split; [reflexivity|]. split; [reflexivity|]. split; [exact H3|].
  split; [exact H1|]. split; [exact H2|].
  apply (user_insert_succeeds db_type env2 "Eve" "eve@example.org" Hreach);
    [simpl; lia|simpl; lia|reflexivity|reflexivity|exact H3|exact H1|exact H2].
Defined.
End CreateUser.

(** ** The schemas and the create-user route *)

Section ApiMore.
  Import Api Pydantic.
  Variable conforms : annotation -> json -> bool.

Lemma flat_map_nil {A B} (f : A -> list B) (l : list A) :
  flat_map f l = [] <-> forall x, x ∈ l -> f x = [].
Proof.
  induction l as [|a l IH]; simpl.
  - split; [intros _ x Hx; by apply elem_of_nil in Hx|reflexivity].
  - split.
    + intros H. apply app_eq_nil in H as [Ha Hl]. intros x Hx.
      apply elem_of_cons in Hx as [->|Hx]; [exact Ha|].
      apply IH; assumption.
    + intros H. rewrite (H a) by left. simpl. apply IH.
      intros x Hx. apply H. by right.
Qed.

(** What it takes for an input to pass. *)
Lemma validate_passes (s : Schema) (input : json) :
  validate conforms s input = [] <->
  exists members,
    input = JObj members
    /\ forall k a, (k, a) ∈ fields s ->
         exists v, obj_get k members = Some v /\ conforms a v = true.
Proof.
  unfold validate. destruct input as [| | | | |members];
    try (split; [discriminate|intros (? & [=] & _)]).
  rewrite flat_map_nil. split.
  - intros H. exists members. split; [reflexivity|]. intros k a Hf.
    specialize (H (k, a) Hf). unfold validate_field in H. simpl in H.
    destruct (obj_get k members) as [v|]; [|discriminate].
    exists v. split; [reflexivity|].
    destruct (conforms a v); [reflexivity|discriminate].
  - intros (ms & [= <-] & H) [k a] Hf. unfold validate_field. simpl.
    destruct (H k a Hf) as (v & -> & ->). reflexivity.
Qed.

(** X18: the request schema asks the client for everything, including
    what the storage would generate: whatever the per-field rules are, an
    input passes [UserSchema] only if it is an object with a member for
    each of the ten fields, among them [id], [created_on] and
    [updated_on]; an object without one of them is rejected with that
    field reported missing. *)
Theorem user_schema_requires_all_fields (input : json) :
  (validate conforms UserSchema input = [] ->
   exists members,
     input = JObj members
     /\ forall k, k ∈ ["name"; "email"; "role"; "is_active"; "user_type";
                       "custom_type_definition_id"; "custom_fields"; "id";
                       "created_on"; "updated_on"] ->
          is_Some (obj_get k members))
  /\ (forall members k a,
        input = JObj members -> (k, a) ∈ fields UserSchema ->
        obj_get k members = None ->
        Missing k ∈ validate conforms UserSchema input).
Proof.
  split.
  - intros H. apply validate_passes in H as (members & -> & H).
    exists members. split; [reflexivity|]. intros k Hk.
    change ["name"; "email"; "role"; "is_active"; "user_type";
            "custom_type_definition_id"; "custom_fields"; "id";
            "created_on"; "updated_on"]
      with (fst <$> fields UserSchema) in Hk.
    apply list_elem_of_fmap in Hk as ([k' a] & -> & Hin).
    destruct (H k' a Hin) as (v & Hv & _). simpl. eauto.
  - intros members k a -> Hf Hnone. unfold validate.
    apply list_elem_of_In, in_flat_map. exists (k, a).
    split; [apply list_elem_of_In, Hf|].
    unfold validate_field. simpl. rewrite Hnone. by left.
Qed.

(** X19: a military payload is a user payload: every input that passes
    [MilitaryUserSchema] passes [UserSchema]. *)
Theorem military_schema_extends_user_schema (input : json) :
  validate conforms MilitaryUserSchema input = [] ->
  validate conforms UserSchema input = [].
Proof.
  intros H. apply validate_passes in H as (members & -> & H).
  apply validate_passes. exists members. split; [reflexivity|].
  intros k a Hf. apply H. unfold MilitaryUserSchema. cbn [fields].
  apply elem_of_app. left. exact Hf.
Qed.

(** X20: the create-user route never answers 201.  Whatever the
    per-field rules are, a request to the one route of the router is
    answered 422 when its body fails [UserSchema], and 500 otherwise,
    because the handler returns nothing and nothing is no [UserSchema]. *)
Theorem create_user_never_created (r : APIRoute) (body : json) :
  r ∈ routes router ->
  (validate conforms create_user_param body ≠ [] ->
   respond conforms r create_user_param body = 422)
  /\ (validate conforms create_user_param body = [] ->
      respond conforms r create_user_param body = 500)
  /\ respond conforms r create_user_param body ≠ HTTP_201_CREATED.
Proof.
  intros Hr. apply list_elem_of_singleton in Hr as ->.
  unfold respond. cbn [response_model endpoint status_code].
  destruct (validate conforms create_user_param body) as [|x l].
  - split; [done|]. split; [intros _; reflexivity|].
    intros H. discriminate H.
  - split; [intros _; reflexivity|]. split; [discriminate|].
    intros H. discriminate H.
Qed.

End ApiMore.

Section ApiMoreWitnesses.
  Import Api Pydantic.

Lemma military_schema_extends_user_schema_witness :
  validate sample_rules MilitaryUserSchema sample_military_payload = []
  /\ validate sample_rules UserSchema sample_military_payload = [].
Proof.
  split; [reflexivity|].
  apply (military_schema_extends_user_schema sample_rules
           sample_military_payload).
  reflexivity.
Defined.

Lemma create_user_never_created_witness :
  sample_route ∈ routes router
  /\ (validate sample_rules create_user_param sample_military_payload ≠ [] ->
      respond sample_rules sample_route create_user_param
        sample_military_payload = 422)
  /\ (validate sample_rules create_user_param sample_military_payload = [] ->
      respond sample_rules sample_route create_user_param
        sample_military_payload = 500)
  /\ respond sample_rules sample_route create_user_param
       sample_military_payload ≠ HTTP_201_CREATED.
Proof.
  assert (H : sample_route ∈ routes router).
  { apply list_elem_of_singleton. reflexivity. }
  split; [exact H|].
  exact (create_user_never_created sample_rules sample_route
           sample_military_payload H).
Defined.

(** A body with just a name and an email, which is all the storage needs,
    is rejected, and a complete one is answered with a server error. *)
Example create_user_incomplete_body :
  respond sample_rules sample_route create_user_param
    (JObj [("name", JStr "Ada"); ("email", JStr "ada@example.org")]) = 422.
Proof. reflexivity. Qed.

Example create_user_complete_body :
  respond sample_rules sample_route create_user_param
    sample_military_payload = 500.
Proof. reflexivity. Qed.
End ApiMoreWitnesses.
